(** * voice-calendar: the free-slot computation of [check_availability]

    A shallow embedding of the slot-finding loop of [src/app.py]
    (function [check_availability], lines 86-109) and of the way the
    handler calls it (lines 67-69), followed by the properties the
    specification states about it.

    Python values are modelled as follows.
    - A naive [datetime] is the number of microseconds elapsed since
      [datetime.min] (0001-01-01 00:00:00), an integer between [0] and
      [datetime_max]; a [timedelta] is a signed number of microseconds.
    - [datetime + timedelta] raises [OverflowError] when the sum leaves
      the range of [datetime]; this is the only operation of the loop
      that can raise on parsed data.
    - An entry of [busy_slots] is kept as the pair of datetimes that lines
      95-96 parse out of it ([busy_start], [busy_end]).
    - An entry of [free_slots] is kept as the pair of datetimes
      ([current], [slot_end]) that lines 103-107 format into the
      dictionary appended to the list.
    - The [while] loop is a function with fuel: [None] means that the fuel
      ran out before the loop condition became false.

    The handler's own call of the loop follows, on busy entries as lines
    95-96 read them (a naive datetime, an aware one, or an exception), and
    the loop on a store of list objects, for what one invocation leaves to
    the next.

    The handlers [create_event], [cancel_event] and [reschedule_event], and
    the listing of [list_events], follow: their input is the value of
    [request.json], the calendar service is the outside they put requests
    to, and their answer is one of the three [jsonify] returns. *)

From Stdlib Require Import ZArith Lia.
From stdpp Require Import base list gmap strings pretty.

Local Open Scope Z_scope.
Local Set Warnings "-register-all".

(** ** Dates, durations and the outcome of a computation *)

Definition datetime := Z.
Definition timedelta := Z.

Definition microsecond : timedelta := 1.
Definition second : timedelta := 1000000 * microsecond.
Definition minute : timedelta := 60 * second.
Definition hour : timedelta := 60 * minute.
Definition day : timedelta := 24 * hour.

Definition datetime_min : datetime := 0.
(** 9999-12-31 23:59:59.999999; [date.max.toordinal()] is 3652059. *)
Definition datetime_max : datetime := 3652059 * day - 1.

Inductive exception : Set :=
| OverflowError.

(** What a piece of code ends with: a value, or an exception.  Inside
    [check_availability] an exception is caught by the [except] clause of
    lines 119-123 and answered with status 500. *)
Inductive outcome (A : Type) : Type :=
| Returned (a : A)
| Raised (e : exception).

Arguments Returned {A} a.
Arguments Raised {A} e.

(** [t + d] on a [datetime] and a [timedelta]. *)
Definition datetime_add (t : datetime) (d : timedelta) : outcome datetime :=
  if (datetime_min <=? t + d) && (t + d <=? datetime_max)
  then Returned (t + d)
  else Raised OverflowError.

(** [t.replace(hour=h, minute=0, second=0, microsecond=0)]: same calendar
    day, time of day [h]:00:00. *)
Definition replace_hour (t : datetime) (h : Z) : datetime :=
  t / day * day + h * hour.

(** ** The data of the loop *)

Record BusyInterval : Set := mkBusy {
  busy_start : datetime;
  busy_end : datetime
}.

Record FreeSlot : Set := mkSlot {
  fs_start : datetime;
  fs_end : datetime
}.

Record TimeWindow : Set := mkWindow {
  start_time : datetime;
  end_time : datetime
}.

(** ** The loop of [check_availability] *)

Section Loop.

(** [timedelta(hours=1)] in the source; a parameter here, so that the
    slot duration of the specification can be any duration. *)
Variable slot_duration : timedelta.
Variable window_end : datetime.
Variable busy_slots : list BusyInterval.

(** Lines 93-100: the scan over [busy_slots], left at the first
    conflict. *)
Fixpoint is_free (current slot_end : datetime) (busy : list BusyInterval)
  : bool :=
  match busy with
  | [] => true
  | b :: rest =>
      if (current <? busy_end b) && (slot_end >? busy_start b)
      then false
      else is_free current slot_end rest
  end.

(** Lines 89-109: [while current < end_time]. *)
Fixpoint while_loop (fuel : nat) (current : datetime)
    (free_slots : list FreeSlot) : option (outcome (list FreeSlot)) :=
  match fuel with
  | O => None
  | S fuel' =>
      if current <? window_end then
        match datetime_add current slot_duration with
        | Raised e => Some (Raised e)
        | Returned slot_end =>
            if is_free current slot_end busy_slots
            then while_loop fuel' slot_end
                   (free_slots ++ [mkSlot current slot_end])
            else while_loop fuel' slot_end free_slots
        end
      else Some (Returned free_slots)
  end.

End Loop.

(** Lines 86-109 as a function of the window, the busy intervals and the
    slot duration: [free_slots = []], [current = start_time], then the
    loop. *)
Definition compute_free_slots (fuel : nat) (window : TimeWindow)
    (busy_slots : list BusyInterval) (slot_duration : timedelta)
  : option (outcome (list FreeSlot)) :=
  while_loop slot_duration (end_time window) busy_slots fuel
    (start_time window) [].

(** The computation ends with outcome [o]. *)
Definition yields (window : TimeWindow) (busy_slots : list BusyInterval)
    (slot_duration : timedelta) (o : outcome (list FreeSlot)) : Prop :=
  exists fuel, compute_free_slots fuel window busy_slots slot_duration = Some o.

(** Lines 67-69: the window of the handler, the working hours of
    [target_date]. *)
Definition working_hours (target_date : datetime) : TimeWindow :=
  mkWindow (replace_hour target_date 9) (replace_hour target_date 18).

(** ** Vocabulary of the specification *)

(** Half-open overlap of a slot and a busy interval. *)
Definition overlaps (s : FreeSlot) (b : BusyInterval) : Prop :=
  fs_start s < busy_end b /\ fs_end s > busy_start b.

(** The candidate slots: [n] consecutive slots of length [d] from
    [current] on. *)
Fixpoint candidates (d : timedelta) (n : nat) (current : datetime)
  : list FreeSlot :=
  match n with
  | O => []
  | S n' => mkSlot current (current + d) :: candidates d n' (current + d)
  end.

(** How many candidates the loop visits from [current] on: the least [n]
    with [current + n * d >= window_end]. *)
Definition candidate_count (d : timedelta) (window_end current : datetime)
  : nat :=
  Z.to_nat ((window_end - current + d - 1) / d).

Definition slot_is_free (busy : list BusyInterval) (s : FreeSlot) : Prop :=
  is_free (fs_start s) (fs_end s) busy = true.

#[global] Instance slot_is_free_dec busy s : Decision (slot_is_free busy s).
Proof. unfold slot_is_free. apply _. Defined.

Definition contiguous (l : list FreeSlot) : Prop :=
  forall i s t, l !! i = Some s -> l !! S i = Some t -> fs_end s = fs_start t.

Definition non_overlapping (l : list FreeSlot) : Prop :=
  forall i j s t, (i < j)%nat -> l !! i = Some s -> l !! j = Some t ->
    fs_end s <= fs_start t.

Definition chronological (l : list FreeSlot) : Prop :=
  forall i j s t, (i < j)%nat -> l !! i = Some s -> l !! j = Some t ->
    fs_start s < fs_start t.

(** The candidates of a window. *)
Definition window_count (window : TimeWindow) (d : timedelta) : nat :=
  candidate_count d (end_time window) (start_time window).

Definition window_candidates (window : TimeWindow) (d : timedelta)
  : list FreeSlot :=
  candidates d (window_count window d) (start_time window).

(** No candidate of the window ends after the last [datetime]. *)
Definition in_range (window : TimeWindow) (d : timedelta) : Prop :=
  0 <= start_time window /\ end_time window + d <= datetime_max + 1.

(** The same window, busy interval or slot, [delta] later. *)
Definition shift_window (delta : timedelta) (w : TimeWindow) : TimeWindow :=
  mkWindow (start_time w + delta) (end_time w + delta).

Definition shift_busy (delta : timedelta) (b : BusyInterval) : BusyInterval :=
  mkBusy (busy_start b + delta) (busy_end b + delta).

Definition shift_slot (delta : timedelta) (s : FreeSlot) : FreeSlot :=
  mkSlot (fs_start s + delta) (fs_end s + delta).

(** Times of day on the first day of the calendar, for the scenarios. *)
Definition at_ (h m : Z) : datetime := h * hour + m * minute.

(** ** Python values of the other handlers

    A [str] is the list of its code points.  A value is what
    [request.json] or the Google client hands to a handler: [None], a
    [bool], an [int], a [float] (its bits, never inspected), a [str], a
    [list] or a [dict] with [str] keys. *)

Definition pystr := list N.

Definition lit (s : string) : pystr :=
  (fun a => Ascii.N_of_ascii a) <$> String.list_ascii_of_string s.

Arguments lit : simpl never.

Inductive value : Type :=
| VNone
| VBool (b : bool)
| VInt (z : Z)
| VFloat (bits : N)
| VStr (s : pystr)
| VList (l : list value)
| VDict (m : gmap pystr value).

(** [dict] displays. *)
Definition dict_items (items : list (string * value)) : gmap pystr value :=
  list_to_map (prod_map lit id <$> items).

Definition dict (items : list (string * value)) : value :=
  VDict (dict_items items).

Definition str (s : string) : value := VStr (lit s).

(** The exceptions the handlers can meet: the three that their own
    subscripts and method calls raise, and whatever Flask or the Google
    client raises. *)
Inductive py_exception : Type :=
| AttributeError
| KeyError (key : pystr)
| TypeError
| ExternalError (msg : pystr).

Inductive result (A : Type) : Type :=
| Value (a : A)
| Raises (e : py_exception).

Arguments Value {A} a.
Arguments Raises {A} e.

#[global] Instance result_ret : MRet result := @Value.
#[global] Instance result_bind : MBind result := fun A B f r =>
  match r with
  | Value a => f a
  | Raises e => Raises e
  end.

(** [c.isspace()] for a code point: the characters [str.strip()] removes. *)
Definition isspace (c : N) : bool :=
  (((9 <=? c) && (c <=? 13)) || ((28 <=? c) && (c <=? 32))
   || (c =? 133) || (c =? 160) || (c =? 5760)
   || ((8192 <=? c) && (c <=? 8202))
   || (c =? 8232) || (c =? 8233) || (c =? 8239) || (c =? 8287)
   || (c =? 12288))%N.

Fixpoint lstrip (s : pystr) : pystr :=
  match s with
  | [] => []
  | c :: s' => if isspace c then lstrip s' else s
  end.

Definition rstrip (s : pystr) : pystr := reverse (lstrip (reverse s)).

(** [s.strip()] *)
Definition strip (s : pystr) : pystr := rstrip (lstrip s).

(** [v.strip()]: only a [str] has the method. *)
Definition value_strip (v : value) : result pystr :=
  match v with
  | VStr s => Value (strip s)
  | _ => Raises AttributeError
  end.

(** [d.get(key, default)]: only a [dict] has the method. *)
Definition dict_get (d : value) (key : string) (dflt : value)
  : result value :=
  match d with
  | VDict m => Value (default dflt (m !! lit key))
  | _ => Raises AttributeError
  end.

(** [d[key]] with a [str] key. *)
Definition getitem (d : value) (key : string) : result value :=
  match d with
  | VDict m =>
      match m !! lit key with
      | Some v => Value v
      | None => Raises (KeyError (lit key))
      end
  | _ => Raises TypeError
  end.

(** [d[key] = v] with a [str] key. *)
Definition setitem (d : value) (key : string) (v : value) : result value :=
  match d with
  | VDict m => Value (VDict (<[lit key := v]> m))
  | _ => Raises TypeError
  end.

(** [for x in v]: the items a loop over [v] visits.  A loop over a [dict]
    visits its keys, a loop over a [str] its characters. *)
Definition iterate (v : value) : result (list value) :=
  match v with
  | VList l => Value l
  | VDict m => Value ((fun kv => VStr kv.1) <$> map_to_list m)
  | VStr s => Value ((fun c => VStr [c]) <$> s)
  | _ => Raises TypeError
  end.

(** ** The calendar service and the handlers' control flow *)

(** What a handler asks of the outside: [get_calendar_service()] and the
    [.execute()] of a request to the Calendar API. *)
Inductive request : Type :=
| get_calendar_service
| events_insert (calendarId : pystr) (body : value) (sendUpdates : pystr)
| events_delete (calendarId eventId sendUpdates : pystr)
| events_get (calendarId eventId : pystr)
| events_update (calendarId eventId : pystr) (body : value)
    (sendUpdates : pystr).

(** A handler body: it returns, raises, or puts a request to the outside
    and goes on with the answer. *)
Inductive prog (A : Type) : Type :=
| Ret (a : A)
| Raise (e : py_exception)
| Call (rq : request) (k : result value -> prog A).

Arguments Ret {A} a.
Arguments Raise {A} e.
Arguments Call {A} rq k.

Fixpoint prog_bind_ {A B} (f : A -> prog B) (p : prog A) : prog B :=
  match p with
  | Ret a => f a
  | Raise e => Raise e
  | Call rq k => Call rq (fun r => prog_bind_ f (k r))
  end.

#[global] Instance prog_ret : MRet prog := @Ret.
#[global] Instance prog_bind : MBind prog := @prog_bind_.

Definition lift {A} (r : result A) : prog A :=
  match r with
  | Value a => Ret a
  | Raises e => Raise e
  end.

(** The request is sent; its answer is returned, or its exception goes
    up. *)
Definition execute (rq : request) : prog value := Call rq lift.

(** The three shapes of a handler's answer:
    [jsonify(body)], [jsonify({'success': False, 'error': error}), 400] and
    [jsonify({'success': False, 'error': str(e)}), 500]. *)
Inductive response : Type :=
| Ok200 (body : value)
| Bad400 (error : pystr)
| Err500 (e : py_exception).

(** [try: ... except Exception as e: return ..., 500] *)
Fixpoint try_except (p : prog response) : prog response :=
  match p with
  | Ret r => Ret r
  | Raise e => Ret (Err500 e)
  | Call rq k => Call rq (fun r => try_except (k r))
  end.

(** The outside: its answer to a request, given the requests before. *)
Definition world := list request -> request -> result value.

(** A handler body run against the outside: what it ends with and the
    requests it has sent, in order. *)
Fixpoint run {A} (w : world) (sent : list request) (p : prog A)
  : result A * list request :=
  match p with
  | Ret a => (Value a, sent)
  | Raise e => (Raises e, sent)
  | Call rq k => run w (sent ++ [rq]) (k (w sent rq))
  end.

(** What a handler reads of a text field: [data.get(key, '').strip()]. *)
Definition read_field (data : value) (key : string) : result pystr :=
  dict_get data key (str "") ≫= value_strip.

(** ** [create_event] (lines 128-201) *)

Definition create_event_body (client_name client_email start_time end_time
    description : pystr) (timezone : value) : value :=
  dict
    [("summary", VStr (lit "Appointment with " ++ client_name));
     ("description",
        VStr (if decide (description = []) then
                lit "Appointment booked for " ++ client_name
              else description));
     ("start", dict [("dateTime", VStr start_time); ("timeZone", timezone)]);
     ("end", dict [("dateTime", VStr end_time); ("timeZone", timezone)]);
     ("attendees",
        VList [dict [("email", VStr client_email);
                     ("responseStatus", str "needsAction")]]);
     ("reminders",
        dict [("useDefault", VBool false);
              ("overrides",
                 VList [dict [("method", str "email");
                              ("minutes", VInt 1440)];
                        dict [("method", str "popup");
                              ("minutes", VInt 30)]])])].

Definition create_event (request_json : result value) : prog response :=
  try_except (
    data ← lift request_json;
    client_name ← lift (read_field data "client_name");
    client_email ← lift (read_field data "client_email");
    start_time ← lift (read_field data "start_time");
    end_time ← lift (read_field data "end_time");
    description ← lift (read_field data "description");
    timezone ← lift (dict_get data "timezone" (str "Asia/Kolkata"));
    if decide (client_name = []) then
      Ret (Bad400 (lit "client_name required"))
    else if decide (client_email = []) then
      Ret (Bad400 (lit "client_email required"))
    else if decide (start_time = []) then
      Ret (Bad400 (lit "start_time required"))
    else if decide (end_time = []) then
      Ret (Bad400 (lit "end_time required"))
    else
      _ ← execute get_calendar_service;
      created ← execute
        (events_insert (lit "primary")
           (create_event_body client_name client_email start_time end_time
              description timezone)
           (lit "all"));
      event_id ← lift (getitem created "id");
      event_link ← lift (dict_get created "htmlLink" (str ""));
      start ← lift (getitem created "start" ≫= fun s => getitem s "dateTime");
      end_ ← lift (getitem created "end" ≫= fun s => getitem s "dateTime");
      Ret (Ok200 (dict
        [("success", VBool true);
         ("event_id", event_id);
         ("event_link", event_link);
         ("client_name", VStr client_name);
         ("client_email", VStr client_email);
         ("message",
            VStr (lit "Appointment confirmed for " ++ client_name
                  ++ lit ". Calendar invite sent to " ++ client_email));
         ("start", start);
         ("end", end_)]))).

(** ** [list_events], from the answer of the Calendar API on
    (lines 229-254) *)

Definition format_event (evt : value) : result value :=
  id ← getitem evt "id";
  title ← dict_get evt "summary" (str "Untitled");
  description ← dict_get evt "description" (str "");
  start ← (s ← getitem evt "start";
           date ← dict_get s "date" VNone;
           dict_get s "dateTime" date);
  end_ ← (s ← getitem evt "end";
          date ← dict_get s "date" VNone;
          dict_get s "dateTime" date);
  link ← dict_get evt "htmlLink" (str "");
  mret (dict [("id", id); ("title", title); ("description", description);
              ("start", start); ("end", end_); ("link", link)]).

(** The loop of lines 232-241: [formatted.append(...)] for each event,
    left at the first exception. *)
Fixpoint format_events (events : list value) (formatted : list value)
  : result (list value) :=
  match events with
  | [] => Value formatted
  | evt :: rest =>
      f ← format_event evt;
      format_events rest (formatted ++ [f])
  end.

Definition list_events_answer (api_result : value) : response :=
  match
    items ← dict_get api_result "items" (VList []);
    events ← iterate items;
    formatted ← format_events events [];
    mret (Ok200 (dict
      [("success", VBool true);
       ("count", VInt (Z.of_nat (length formatted)));
       ("events", VList formatted);
       ("message",
          VStr (if decide (formatted = []) then lit "No upcoming events"
                else lit (pretty (length formatted))
                     ++ lit " upcoming events found"))]))
  with
  | Value r => r
  | Raises e => Err500 e
  end.

(** ** [cancel_event] (lines 260-285) *)

Definition cancel_event (request_json : result value) : prog response :=
  try_except (
    data ← lift request_json;
    event_id ← lift (read_field data "event_id");
    if decide (event_id = []) then
      Ret (Bad400 (lit "event_id required"))
    else
      _ ← execute get_calendar_service;
      _ ← execute (events_delete (lit "primary") event_id (lit "all"));
      Ret (Ok200 (dict [("success", VBool true);
                        ("message", str "Event cancelled successfully")]))).

(** ** [reschedule_event] (lines 291-337) *)

(** Lines 314-315: [event['start']['dateTime'] = new_start] and the same
    for the end. *)
Definition update_times (event : value) (new_start new_end : pystr)
  : result value :=
  start ← getitem event "start";
  start' ← setitem start "dateTime" (VStr new_start);
  event1 ← setitem event "start" start';
  end_ ← getitem event1 "end";
  end' ← setitem end_ "dateTime" (VStr new_end);
  setitem event1 "end" end'.

Definition reschedule_event (request_json : result value) : prog response :=
  try_except (
    data ← lift request_json;
    event_id ← lift (read_field data "event_id");
    new_start ← lift (read_field data "new_start_time");
    new_end ← lift (read_field data "new_end_time");
    if decide (event_id = [] \/ new_start = [] \/ new_end = []) then
      Ret (Bad400 (lit "event_id, new_start_time, new_end_time required"))
    else
      _ ← execute get_calendar_service;
      event ← execute (events_get (lit "primary") event_id);
      event' ← lift (update_times event new_start new_end);
      updated ← execute
        (events_update (lit "primary") event_id event' (lit "all"));
      title ← lift (getitem updated "summary");
      start ← lift (getitem updated "start" ≫= fun s => getitem s "dateTime");
      end_ ← lift (getitem updated "end" ≫= fun s => getitem s "dateTime");
      Ret (Ok200 (dict
        [("success", VBool true);
         ("message", str "Event rescheduled successfully");
         ("title", title);
         ("new_start", start);
         ("new_end", end_)]))).

(** ** Vocabulary for the handlers' input *)

(** Nothing but white space. *)
Definition blank (s : pystr) : Prop := Forall (fun c => isspace c = true) s.

(** The field is absent, or a string of white space. *)
Definition missing (m : gmap pystr value) (key : string) : Prop :=
  m !! lit key = None \/
  exists raw, m !! lit key = Some (VStr raw) /\ blank raw.

(** The field is a string, and [s] is what is left of it without the white
    space around it. *)
Definition given (m : gmap pystr value) (key : string) (s : pystr) : Prop :=
  exists raw, m !! lit key = Some (VStr raw) /\ strip raw = s /\ s <> [].

(** The field is absent or a string. *)
Definition textual (m : gmap pystr value) (key : string) : Prop :=
  m !! lit key = None \/ exists raw, m !! lit key = Some (VStr raw).

(** ** Overlap, stated without the scan *)

#[global] Instance overlaps_dec s b : Decision (overlaps s b).
Proof. unfold overlaps. apply _. Defined.

(** The slot overlaps none of the busy intervals. *)
Definition overlaps_none (busy : list BusyInterval) (s : FreeSlot) : Prop :=
  Forall (fun b => ~ overlaps s b) busy.

#[global] Instance overlaps_none_dec busy s : Decision (overlaps_none busy s).
Proof. unfold overlaps_none. apply _. Defined.

(** ** The busy entries as the handler reads them (lines 95-98)

    Lines 95 and 96 make a datetime of each of the two times of a busy
    entry: [datetime.fromisoformat(busy[key].replace('Z', ''))] is a naive
    datetime, or an aware one when the text carries a UTC offset, or it
    raises (the subscript, [.replace] or [fromisoformat]).  An entry is kept
    as what the two lines make of it. *)

Inductive pydatetime : Set :=
| Naive (t : datetime)
| Aware (t : datetime) (utcoffset : timedelta).

Record BusyEntry : Type := mkEntry {
  entry_start : result pydatetime;
  entry_end : result pydatetime
}.

(** [a < b] and [a > b] for a naive [a]: Python refuses to compare a naive
    datetime with an aware one. *)
Definition naive_lt (a : datetime) (b : pydatetime) : result bool :=
  match b with
  | Naive t => Value (a <? t)
  | Aware _ _ => Raises TypeError
  end.

Definition naive_gt (a : datetime) (b : pydatetime) : result bool :=
  match b with
  | Naive t => Value (a >? t)
  | Aware _ _ => Raises TypeError
  end.

(** Lines 93-100 on the entries: both times are made before they are
    compared, and [slot_end > busy_start] is evaluated only when
    [current < busy_end] holds. *)
Fixpoint is_free_entries (current slot_end : datetime)
    (busy_slots : list BusyEntry) : result bool :=
  match busy_slots with
  | [] => Value true
  | busy :: rest =>
      busy_start ← entry_start busy;
      busy_end ← entry_end busy;
      before_end ← naive_lt current busy_end;
      if before_end : bool then
        after_start ← naive_gt slot_end busy_start;
        if after_start : bool then Value false
        else is_free_entries current slot_end rest
      else is_free_entries current slot_end rest
  end.

(** What the loop of lines 86-109 can raise: the [OverflowError] of the
    addition, or what the scan of the entries raises. *)
Inductive loop_exception : Type :=
| ByAddition (e : exception)
| ByEntry (e : py_exception).

(** The end of lines 86-109: the list [free_slots], or an exception, which
    the [except] clause of lines 119-123 answers with status 500. *)
Inductive ended : Type :=
| Free (free_slots : list FreeSlot)
| Failed (e : loop_exception).

Section EntriesLoop.

Variable slot_duration : timedelta.
Variable window_end : datetime.
Variable busy_slots : list BusyEntry.

(** Lines 89-109 on the entries. *)
Fixpoint entries_loop (fuel : nat) (current : datetime)
    (free_slots : list FreeSlot) : option ended :=
  match fuel with
  | O => None
  | S fuel' =>
      if current <? window_end then
        match datetime_add current slot_duration with
        | Raised e => Some (Failed (ByAddition e))
        | Returned slot_end =>
            match is_free_entries current slot_end busy_slots with
            | Raises e => Some (Failed (ByEntry e))
            | Value true =>
                entries_loop fuel' slot_end
                  (free_slots ++ [mkSlot current slot_end])
            | Value false => entries_loop fuel' slot_end free_slots
            end
        end
      else Some (Free free_slots)
  end.

End EntriesLoop.

(** Lines 67-69 and 86-109: the handler's own call, on the working hours
    of [target_date], with slots of one hour, on the entries of the
    Calendar API's answer. *)
Definition check_availability (fuel : nat) (target_date : datetime)
    (busy_slots : list BusyEntry) : option ended :=
  entries_loop hour (end_time (working_hours target_date)) busy_slots fuel
    (start_time (working_hours target_date)) [].

(** An entry whose two times are naive datetimes. *)
Definition naive_entry (b : BusyInterval) : BusyEntry :=
  mkEntry (Value (Naive (busy_start b))) (Value (Naive (busy_end b))).

(** ** Lines 86-109 on a store

    [free_slots = []] makes a new list object, [free_slots.append(...)]
    changes it in place, and [busy_slots] is a list object the loop reads
    on every round.  The store holds the list objects; a location that is
    not in it is free. *)

Definition loc := nat.

Inductive py_list : Type :=
| BusyList (items : list BusyInterval)
| SlotList (items : list FreeSlot).

Abbreviation store := (gmap loc py_list).

Section StoreLoop.

Variable slot_duration : timedelta.
Variable window_end : datetime.
Variable busy_slots : loc.
Variable free_slots : loc.

(** Lines 89-109.  [None] is also the answer when a variable does not
    hold a list of the right kind, which the callers below exclude. *)
Fixpoint store_loop (fuel : nat) (current : datetime) (h : store)
  : option (outcome store) :=
  match fuel with
  | O => None
  | S fuel' =>
      if current <? window_end then
        match datetime_add current slot_duration with
        | Raised e => Some (Raised e)
        | Returned slot_end =>
            match h !! busy_slots with
            | Some (BusyList busy) =>
                if is_free current slot_end busy then
                  match h !! free_slots with
                  | Some (SlotList items) =>
                      store_loop fuel' slot_end
                        (<[free_slots :=
                             SlotList (items ++ [mkSlot current slot_end])]> h)
                  | _ => None
                  end
                else store_loop fuel' slot_end h
            | _ => None
            end
        end
      else Some (Returned h)
  end.

End StoreLoop.

(** One invocation of lines 86-109: the new list is put at a free
    location, the loop runs, and the location of [free_slots] is the
    result. *)
Definition invoke (fuel : nat) (window : TimeWindow) (busy_slots : loc)
    (slot_duration : timedelta) (h : store) : option (outcome (store * loc)) :=
  let free_slots := fresh (dom h) in
  match
    store_loop slot_duration (end_time window) busy_slots free_slots fuel
      (start_time window) (<[free_slots := SlotList []]> h)
  with
  | Some (Returned h') => Some (Returned (h', free_slots))
  | Some (Raised e) => Some (Raised e)
  | None => None
  end.

(** ** Example data for the handlers *)

(** A service that acknowledges an insert with the event and an id, and
    any other request with [None]. *)
Definition example_service : world := fun _ rq =>
  match rq with
  | events_insert _ (VDict body) _ =>
      Value (VDict (<[lit "id" := str "evt1"]> body))
  | events_get _ _ =>
      Value (dict [("summary", str "Call");
                   ("start", dict [("dateTime", str "2024-01-01T10:00:00");
                                   ("timeZone", str "UTC")]);
                   ("end", dict [("dateTime", str "2024-01-01T11:00:00");
                                 ("timeZone", str "UTC")])])
  | _ => Value VNone
  end.

Definition example_booking : gmap pystr value :=
  dict_items [("client_name", str " Ada ");
              ("client_email", str "ada@example.org");
              ("start_time", str "2024-01-01T10:00:00");
              ("end_time", str "2024-01-01T11:00:00")].

Example run_scenario :
  compute_free_slots 10 (mkWindow (at_ 9 0) (at_ 18 0))
    [mkBusy (at_ 9 0) (at_ 10 30)] hour
  = Some (Returned (candidates hour 7 (at_ 11 0))).
Proof. vm_compute. reflexivity. Qed.

(** ** Arithmetic of dates *)

Lemma datetime_add_Returned t d r :
  datetime_add t d = Returned r -> r = t + d /\ 0 <= t + d <= datetime_max.
Proof.
  unfold datetime_add, datetime_min.
  destruct (0 <=? t + d) eqn:Hlo, (t + d <=? datetime_max) eqn:Hhi;
    simpl; intros H; inversion H; subst.
  apply Z.leb_le in Hlo, Hhi. lia.
Qed.

Lemma datetime_add_in_range t d :
  0 <= t + d <= datetime_max -> datetime_add t d = Returned (t + d).
Proof.
  intros [Hlo Hhi]. unfold datetime_add, datetime_min.
  apply Z.leb_le in Hlo, Hhi. rewrite Hlo, Hhi. reflexivity.
Qed.

Lemma candidate_count_stop d e cur :
  0 < d -> e <= cur -> candidate_count d e cur = O.
Proof.
  intros Hd Hle. unfold candidate_count.
  assert ((e - cur + d - 1) / d <= 0); [|lia].
  assert ((e - cur + d - 1) / d < 1); [|lia].
  apply Z.div_lt_upper_bound; lia.
Qed.

Lemma candidate_count_step d e cur :
  0 < d -> cur < e ->
  candidate_count d e cur = S (candidate_count d e (cur + d)).
Proof.
  intros Hd Hlt. unfold candidate_count.
  replace (e - cur + d - 1) with (e - (cur + d) + d - 1 + 1 * d) by lia.
  rewrite Z.div_add by lia.
  rewrite Z2Nat.inj_add, Nat.add_1_r; [reflexivity| |lia].
  apply Z.div_pos; lia.
Qed.

(** The count is the rounded-up quotient of the window length. *)
Lemma candidate_count_exact d e cur q :
  0 < d -> 0 <= q -> e - cur = q * d -> candidate_count d e cur = Z.to_nat q.
Proof.
  intros Hd Hq Heq. unfold candidate_count. f_equal.
  replace (e - cur + d - 1) with (d - 1 + q * d) by lia.
  rewrite Z.div_add by lia. rewrite Z.div_small; lia.
Qed.

Lemma candidate_count_bounds d e cur :
  0 < d -> cur < e ->
  let n := Z.of_nat (candidate_count d e cur) in
  cur + (n - 1) * d < e <= cur + n * d.
Proof.
  intros Hd Hlt. unfold candidate_count.
  assert (Hq : 0 <= (e - cur + d - 1) / d) by (apply Z.div_pos; lia).
  rewrite Z2Nat.id by exact Hq. cbv zeta.
  pose proof (Z.div_mod (e - cur + d - 1) d ltac:(lia)) as Hdm.
  pose proof (Z.mod_pos_bound (e - cur + d - 1) d Hd) as Hm.
  nia.
Qed.

(** ** The candidate list *)

Lemma length_candidates d n cur : length (candidates d n cur) = n.
Proof.
  revert cur. induction n as [|n IH]; intros cur; simpl; [reflexivity|].
  now rewrite IH.
Qed.

Lemma candidates_lookup d n cur (k : nat) :
  (k < n)%nat ->
  candidates d n cur !! k
  = Some (mkSlot (cur + Z.of_nat k * d) (cur + (Z.of_nat k + 1) * d)).
Proof.
  revert cur k. induction n as [|n IH]; intros cur k Hk; [lia|].
  destruct k as [|k]; simpl.
  - do 2 f_equal; lia.
  - rewrite IH by lia. do 2 f_equal; lia.
Qed.

Lemma candidates_lookup_Some d n cur (k : nat) s :
  candidates d n cur !! k = Some s ->
  (k < n)%nat /\
  s = mkSlot (cur + Z.of_nat k * d) (cur + (Z.of_nat k + 1) * d).
Proof.
  intros H. assert (Hk : (k < n)%nat).
  { apply lookup_lt_Some in H. now rewrite length_candidates in H. }
  split; [exact Hk|]. rewrite candidates_lookup in H by exact Hk. congruence.
Qed.

Lemma elem_of_candidates d n cur s :
  s ∈ candidates d n cur ->
  exists k : nat, (k < n)%nat /\
    s = mkSlot (cur + Z.of_nat k * d) (cur + (Z.of_nat k + 1) * d).
Proof.
  intros [k Hk]%list_elem_of_lookup. exists k.
  now apply candidates_lookup_Some.
Qed.

(** ** The scan over the busy intervals *)

Lemma is_free_true current slot_end busy :
  is_free current slot_end busy = true <->
  forall b, b ∈ busy -> ~ (current < busy_end b /\ slot_end > busy_start b).
Proof.
  induction busy as [|b rest IH]; simpl.
  - split; [|reflexivity]. intros _ b Hb. inversion Hb.
  - destruct (current <? busy_end b) eqn:H1, (slot_end >? busy_start b) eqn:H2;
      simpl; rewrite ?IH.
    1: { split; [discriminate|]. intros H. exfalso. apply (H b); [left|].
         apply Z.ltb_lt in H1. rewrite Z.gtb_ltb in H2. apply Z.ltb_lt in H2.
         lia. }
    all: split;
      [ intros H b' [->|Hb']%elem_of_cons; [|now apply H];
        apply Z.ltb_ge in H1 || (rewrite Z.gtb_ltb in H2; apply Z.ltb_ge in H2);
        lia
      | intros H b' Hb'; apply H; now right ].
Qed.

Lemma slot_is_free_spec busy s :
  slot_is_free busy s <-> forall b, b ∈ busy -> ~ overlaps s b.
Proof. unfold slot_is_free, overlaps. apply is_free_true. Qed.

(** ** The loop *)

(** More fuel does not change an outcome. *)
Lemma while_loop_fuel_mono d e busy fuel fuel' cur acc o :
  (fuel <= fuel')%nat ->
  while_loop d e busy fuel cur acc = Some o ->
  while_loop d e busy fuel' cur acc = Some o.
Proof.
  revert fuel' cur acc. induction fuel as [|fuel IH]; intros fuel' cur acc Hle;
    [discriminate|].
  destruct fuel' as [|fuel']; [lia|]. simpl.
  destruct (cur <? e); [|trivial].
  destruct (datetime_add cur d) as [slot_end|ex]; [|trivial].
  destruct (is_free cur slot_end busy); apply IH; lia.
Qed.

(** A window that is already over: the loop body is never entered. *)
Lemma while_loop_stop d e busy fuel cur acc :
  e <= cur -> while_loop d e busy (S fuel) cur acc = Some (Returned acc).
Proof.
  intros Hle. simpl. apply Z.ltb_ge in Hle. now rewrite Hle.
Qed.

(** Where the loop returns, it returns the free candidates, in the order
    of the walk; and it returns for every other list of busy intervals
    too, since these do not steer the walk. *)
Lemma while_loop_returned d e busy fuel cur acc r :
  0 < d ->
  while_loop d e busy fuel cur acc = Some (Returned r) ->
  forall busy' acc',
    while_loop d e busy' fuel cur acc'
    = Some (Returned
        (acc' ++ filter (slot_is_free busy')
                   (candidates d (candidate_count d e cur) cur))).
Proof.
  intros Hd. revert cur acc. induction fuel as [|fuel IH];
    intros cur acc Hrun busy' acc'; [discriminate|].
  simpl in Hrun |- *.
  destruct (Z.ltb_spec cur e) as [Hlt|Hge].
  - destruct (datetime_add cur d) as [slot_end|ex] eqn:Hadd; [|discriminate].
    apply datetime_add_Returned in Hadd as [-> _].
    rewrite candidate_count_step by assumption. simpl candidates.
    assert (Hnext : exists acc0,
      while_loop d e busy fuel (cur + d) acc0 = Some (Returned r)).
    { destruct (is_free cur (cur + d) busy); eauto. }
    destruct Hnext as [acc0 Hnext].
    destruct (is_free cur (cur + d) busy') eqn:Hfree.
    + rewrite (IH _ _ Hnext). rewrite filter_cons_True by exact Hfree.
      now rewrite <- app_assoc.
    + rewrite (IH _ _ Hnext). rewrite filter_cons_False; [reflexivity|].
      unfold slot_is_free; simpl. now rewrite Hfree.
  - rewrite candidate_count_stop by assumption. simpl.
    now rewrite filter_nil, app_nil_r.
Qed.

(** The loop returns as soon as the fuel exceeds the number of candidates,
    provided no candidate ends past [datetime_max]. *)
Lemma while_loop_total d e busy fuel cur acc :
  0 < d -> 0 <= cur -> e + d <= datetime_max + 1 ->
  (candidate_count d e cur < fuel)%nat ->
  exists r, while_loop d e busy fuel cur acc = Some (Returned r).
Proof.
  intros Hd Hcur Hmax. revert cur acc Hcur.
  induction fuel as [|fuel IH]; intros cur acc Hcur Hfuel; [lia|].
  simpl. destruct (Z.ltb_spec cur e) as [Hlt|Hge]; [|eauto].
  rewrite datetime_add_in_range by lia.
  rewrite candidate_count_step in Hfuel by assumption.
  destruct (is_free cur (cur + d) busy); apply IH; lia.
Qed.

(** With a slot duration that is not positive, [current] never reaches
    the end of a window that has not started: no result is returned. *)
Lemma while_loop_stuck d e busy fuel cur acc r :
  d <= 0 -> cur < e ->
  while_loop d e busy fuel cur acc <> Some (Returned r).
Proof.
  intros Hd. revert cur acc. induction fuel as [|fuel IH];
    intros cur acc Hlt; [discriminate|].
  simpl. apply Z.ltb_lt in Hlt as Hlt'. rewrite Hlt'.
  destruct (datetime_add cur d) as [slot_end|ex] eqn:Hadd; [|discriminate].
  apply datetime_add_Returned in Hadd as [-> _].
  destruct (is_free cur (cur + d) busy); apply IH; lia.
Qed.

(** ** The computation on a window *)

Lemma yields_deterministic window busy d o1 o2 :
  yields window busy d o1 -> yields window busy d o2 -> o1 = o2.
Proof.
  intros [f1 H1] [f2 H2]. unfold compute_free_slots in *.
  apply (while_loop_fuel_mono _ _ _ _ (f1 `max` f2)%nat) in H1; [|lia].
  apply (while_loop_fuel_mono _ _ _ _ (f1 `max` f2)%nat) in H2; [|lia].
  congruence.
Qed.

Lemma yields_returned window busy d r :
  0 < d -> yields window busy d (Returned r) ->
  forall busy',
    yields window busy' d
      (Returned (filter (slot_is_free busy') (window_candidates window d))).
Proof.
  intros Hd [fuel Hrun] busy'. exists fuel.
  apply (while_loop_returned _ _ _ _ _ _ _ Hd Hrun busy' []).
Qed.

Lemma yields_closed_form window busy d r :
  0 < d -> yields window busy d (Returned r) ->
  r = filter (slot_is_free busy) (window_candidates window d).
Proof.
  intros Hd Hrun. pose proof (yields_returned _ _ _ _ Hd Hrun busy) as Hrun'.
  pose proof (yields_deterministic _ _ _ _ _ Hrun Hrun'). congruence.
Qed.

Lemma yields_total window busy d :
  0 < d -> in_range window d ->
  yields window busy d
    (Returned (filter (slot_is_free busy) (window_candidates window d))).
Proof.
  intros Hd [Hlo Hhi].
  destruct (while_loop_total d (end_time window) busy
              (S (window_count window d)) (start_time window) [] Hd Hlo Hhi)
    as [r Hr]; [unfold window_count; lia|].
  assert (Hy : yields window busy d (Returned r)) by (eexists; exact Hr).
  now rewrite <- (yields_closed_form _ _ _ _ Hd Hy).
Qed.

(** ** Candidates of a window *)

Lemma window_count_empty window d :
  0 < d -> end_time window <= start_time window -> window_count window d = O.
Proof. intros. now apply candidate_count_stop. Qed.

Lemma window_count_exact window d :
  0 < d -> start_time window <= end_time window ->
  (d | end_time window - start_time window) ->
  Z.of_nat (window_count window d)
  = (end_time window - start_time window) / d.
Proof.
  intros Hd Hle [q Hq]. rewrite Hq, Z.div_mul by lia.
  assert (0 <= q) by nia.
  unfold window_count. rewrite (candidate_count_exact d _ _ q) by lia. lia.
Qed.

Lemma window_candidate_bounds window d s :
  0 < d -> s ∈ window_candidates window d ->
  start_time window <= fs_start s < end_time window /\
  fs_end s = fs_start s + d /\
  ((d | end_time window - start_time window) -> fs_end s <= end_time window).
Proof.
  intros Hd (k & Hk & ->)%elem_of_candidates. simpl.
  fold (window_count window d) in Hk.
  destruct (Z_lt_le_dec (start_time window) (end_time window)) as [Hlt|Hge];
    [|rewrite window_count_empty in Hk by assumption; lia].
  pose proof (candidate_count_bounds d _ _ Hd Hlt) as Hb. cbv zeta in Hb.
  fold (window_count window d) in Hb.
  split; [nia|]. split; [lia|]. intros Hdiv.
  pose proof (window_count_exact window d Hd ltac:(lia) Hdiv) as Hn.
  destruct Hdiv as [q Hq]. rewrite Hq, Z.div_mul in Hn by lia. nia.
Qed.

Lemma filter_free_nil (l : list FreeSlot) : filter (slot_is_free []) l = l.
Proof.
  induction l as [|s l IH]; [reflexivity|].
  rewrite filter_cons_True by reflexivity. now rewrite IH.
Qed.

Lemma candidates_contiguous d n cur : contiguous (candidates d n cur).
Proof.
  intros i s t [_ ->]%candidates_lookup_Some [_ ->]%candidates_lookup_Some.
  simpl. lia.
Qed.

Lemma candidates_non_overlapping d n cur :
  0 < d -> non_overlapping (candidates d n cur).
Proof.
  intros Hd i j s t Hij [_ ->]%candidates_lookup_Some
    [_ ->]%candidates_lookup_Some.
  simpl. nia.
Qed.

Lemma candidates_chronological d n cur :
  0 < d -> chronological (candidates d n cur).
Proof.
  intros Hd i j s t Hij [_ ->]%candidates_lookup_Some
    [_ ->]%candidates_lookup_Some.
  simpl. nia.
Qed.

(** Filtering with a weaker test keeps a longer list, in the same order. *)
Lemma filter_sublist_impl {A} (P Q : A -> Prop)
    `{!forall x, Decision (P x), !forall x, Decision (Q x)} (l : list A) :
  (forall x, x ∈ l -> P x -> Q x) -> filter P l `sublist_of` filter Q l.
Proof.
  induction l as [|x l IH]; intros Himp; [constructor|].
  assert (IH' : filter P l `sublist_of` filter Q l).
  { apply IH. intros y Hy. apply Himp. now right. }
  destruct (decide (P x)) as [HP|HP].
  - rewrite (filter_cons_True P) by exact HP.
    rewrite (filter_cons_True Q) by (apply Himp; [left|exact HP]).
    now apply sublist_skip.
  - rewrite (filter_cons_False P) by exact HP.
    destruct (decide (Q x)) as [HQ|HQ].
    + rewrite (filter_cons_True Q) by exact HQ. now apply sublist_cons.
    + now rewrite (filter_cons_False Q) by exact HQ.
Qed.

Lemma filter_elem_iff {A} (P Q : A -> Prop)
    `{!forall x, Decision (P x), !forall x, Decision (Q x)} (l : list A) :
  (forall x, x ∈ l -> (P x <-> Q x)) -> filter P l = filter Q l.
Proof.
  induction l as [|x l IH]; intros Hiff; [reflexivity|].
  assert (IH' : filter P l = filter Q l).
  { apply IH. intros y Hy. apply Hiff. now right. }
  destruct (decide (P x)) as [HP|HP].
  - rewrite (filter_cons_True P) by exact HP.
    rewrite (filter_cons_True Q) by (apply Hiff; [left|exact HP]).
    now rewrite IH'.
  - rewrite (filter_cons_False P) by exact HP.
    rewrite (filter_cons_False Q); [exact IH'|].
    intros HQ. apply HP, Hiff; [left|exact HQ].
Qed.

(** One more busy interval, anywhere in the list: a slot is free iff it
    was free before and does not overlap the new interval. *)
Lemma slot_is_free_insert busy1 b busy2 s :
  slot_is_free (busy1 ++ b :: busy2) s <->
  slot_is_free (busy1 ++ busy2) s /\ ~ overlaps s b.
Proof.
  rewrite !slot_is_free_spec. split.
  - intros H. split.
    + intros b' Hb'. apply H. rewrite elem_of_app in Hb' |- *.
      destruct Hb' as [?|?]; [now left|right; now right].
    + apply H. rewrite elem_of_app. right; left.
  - intros [H Hb] b' Hb'. rewrite elem_of_app, elem_of_cons in Hb'.
    destruct Hb' as [?|[->|?]]; [|exact Hb|];
      apply H; rewrite elem_of_app; auto.
Qed.

(** ** The properties of the specification *)

(** C1. For a positive slot duration, every slot in the result overlaps no
    busy interval: no busy [b] has [s.start < b.end] and
    [s.end > b.start].  A result exists whenever the candidates stay
    within the range of [datetime]. *)
Theorem free_slots_overlap_no_busy window busy d :
  0 < d ->
  (forall r, yields window busy d (Returned r) ->
     forall s b, s ∈ r -> b ∈ busy ->
       ~ (fs_start s < busy_end b /\ fs_end s > busy_start b)) /\
  (in_range window d -> exists r, yields window busy d (Returned r)).
Proof.
  intros Hd. split.
  - intros r Hrun s b Hs Hb.
    rewrite (yields_closed_form _ _ _ _ Hd Hrun) in Hs.
    apply list_elem_of_filter in Hs as [Hfree _].
    exact (proj1 (slot_is_free_spec busy s) Hfree b Hb).
  - intros Hin. eexists. now apply yields_total.
Qed.

Lemma free_slots_overlap_no_busy_witness :
  (forall r,
     yields (mkWindow (at_ 9 0) (at_ 18 0)) [mkBusy (at_ 9 0) (at_ 10 30)]
       hour (Returned r) ->
     forall s b, s ∈ r -> b ∈ [mkBusy (at_ 9 0) (at_ 10 30)] ->
       ~ (fs_start s < busy_end b /\ fs_end s > busy_start b)) /\
  (in_range (mkWindow (at_ 9 0) (at_ 18 0)) hour ->
   exists r,
     yields (mkWindow (at_ 9 0) (at_ 18 0)) [mkBusy (at_ 9 0) (at_ 10 30)]
       hour (Returned r)).
Proof.
  apply (free_slots_overlap_no_busy (mkWindow (at_ 9 0) (at_ 18 0))
           [mkBusy (at_ 9 0) (at_ 10 30)] hour).
  reflexivity.
Defined.


(** With no busy interval the result holds every candidate: as many
    slots as the window length divided by the slot duration, rounded up,
    contiguous, not overlapping and in chronological order. *)
Lemma empty_busy_result window d :
  0 < d -> start_time window < end_time window ->
  (forall r, yields window [] d (Returned r) ->
     Z.of_nat (length r) = (end_time window - start_time window + d - 1) / d /\
     ((d | end_time window - start_time window) ->
        Z.of_nat (length r) = (end_time window - start_time window) / d) /\
     contiguous r /\ non_overlapping r /\ chronological r) /\
  (in_range window d -> exists r, yields window [] d (Returned r)).
Proof.
  intros Hd Hlt. split; [|intros Hin; eexists; now apply yields_total].
  intros r Hrun. rewrite (yields_closed_form _ _ _ _ Hd Hrun), filter_free_nil.
  unfold window_candidates. rewrite length_candidates.
  split; [|split; [|split; [|split]]].
  - unfold window_count, candidate_count. rewrite Z2Nat.id; [reflexivity|].
    apply Z.div_pos; lia.
  - intros Hdiv. apply window_count_exact; [assumption|lia|assumption].
  - apply candidates_contiguous.
  - now apply candidates_non_overlapping.
  - now apply candidates_chronological.
Qed.

(** ** The handler's window *)

Lemma replace_hour_day target_date :
  0 <= target_date <= datetime_max ->
  0 <= target_date / day * day <= 3652058 * day.
Proof.
  intros [Hlo Hhi]. unfold datetime_max in Hhi.
  assert (Hday : 0 < day) by reflexivity.
  assert (0 <= target_date / day) by (apply Z.div_pos; lia).
  assert (target_date / day < 3652059)
    by (apply Z.div_lt_upper_bound; lia).
  nia.
Qed.

Lemma working_hours_length target_date :
  end_time (working_hours target_date)
  = start_time (working_hours target_date) + 9 * hour.
Proof. unfold working_hours, replace_hour; simpl. lia. Qed.

Lemma working_hours_in_range target_date :
  0 <= target_date <= datetime_max -> in_range (working_hours target_date) hour.
Proof.
  intros Hd. pose proof (replace_hour_day _ Hd) as Hday.
  unfold in_range, working_hours, replace_hour, datetime_max; simpl.
  unfold day in *. unfold hour, minute, second, microsecond in *. lia.
Qed.

Lemma working_hours_count target_date :
  window_count (working_hours target_date) hour = 9%nat.
Proof.
  unfold window_count.
  rewrite (candidate_count_exact hour _ _ 9);
    [reflexivity|reflexivity|lia|].
  rewrite working_hours_length. lia.
Qed.

(** C5, as the specification has it, fails: the walk starts at 09:00 and
    moves by whole hours, so the free slots start on the hour, from 11:00
    on, and the last one is 17:00-18:00. *)
Lemma scenario_slots_start_on_the_hour :
  let window := mkWindow (at_ 9 0) (at_ 18 0) in
  let busy := [mkBusy (at_ 9 0) (at_ 10 30)] in
  compute_free_slots 10 window busy hour
  = Some (Returned
      [mkSlot (at_ 11 0) (at_ 12 0); mkSlot (at_ 12 0) (at_ 13 0);
       mkSlot (at_ 13 0) (at_ 14 0); mkSlot (at_ 14 0) (at_ 15 0);
       mkSlot (at_ 15 0) (at_ 16 0); mkSlot (at_ 16 0) (at_ 17 0);
       mkSlot (at_ 17 0) (at_ 18 0)]) /\
  ~ yields window busy hour
      (Returned
        [mkSlot (at_ 10 30) (at_ 11 30); mkSlot (at_ 11 30) (at_ 12 30);
         mkSlot (at_ 12 30) (at_ 13 30); mkSlot (at_ 13 30) (at_ 14 30);
         mkSlot (at_ 14 30) (at_ 15 30); mkSlot (at_ 15 30) (at_ 16 30);
         mkSlot (at_ 16 30) (at_ 17 30)]).
Proof.
  cbv zeta. split; [reflexivity|]. intros Hclaimed.
  assert (Hrun : yields (mkWindow (at_ 9 0) (at_ 18 0))
                   [mkBusy (at_ 9 0) (at_ 10 30)] hour
                   (Returned (candidates hour 7 (at_ 11 0))))
    by (exists 10%nat; reflexivity).
  pose proof (yields_deterministic _ _ _ _ _ Hrun Hclaimed) as Heq.
  discriminate Heq.
Qed.

(** C5, amended. On the working hours 09:00-18:00 of any day, with the
    single busy interval 09:00-10:30 and slots of one hour, the result is
    the seven slots 11:00-12:00, 12:00-13:00, 13:00-14:00, 14:00-15:00,
    15:00-16:00, 16:00-17:00 and 17:00-18:00. *)
Theorem scenario_result target_date :
  0 <= target_date <= datetime_max ->
  let nine := replace_hour target_date 9 in
  yields (mkWindow nine (nine + 9 * hour))
    [mkBusy nine (nine + 1 * hour + 30 * minute)] hour
    (Returned
      [mkSlot (nine + 2 * hour) (nine + 3 * hour);
       mkSlot (nine + 3 * hour) (nine + 4 * hour);
       mkSlot (nine + 4 * hour) (nine + 5 * hour);
       mkSlot (nine + 5 * hour) (nine + 6 * hour);
       mkSlot (nine + 6 * hour) (nine + 7 * hour);
       mkSlot (nine + 7 * hour) (nine + 8 * hour);
       mkSlot (nine + 8 * hour) (nine + 9 * hour)]).
Proof.
  intros Hd nine.
  assert (Hin : in_range (mkWindow nine (nine + 9 * hour)) hour).
  { destruct (working_hours_in_range _ Hd) as [Hlo Hhi].
    rewrite working_hours_length in Hhi.
    unfold working_hours in Hlo, Hhi. cbn [start_time end_time] in Hlo, Hhi.
    split; assumption. }
  assert (Hh : 0 < hour) by reflexivity.
  pose proof (yields_total _ [mkBusy nine (nine + 1 * hour + 30 * minute)]
                _ Hh Hin) as Hrun.
  unfold window_candidates, window_count in Hrun.
  cbn [start_time end_time] in Hrun.
  rewrite (candidate_count_exact hour _ _ 9) in Hrun;
    [|reflexivity|lia|lia].
  change (Z.to_nat 9) with 9%nat in Hrun. simpl candidates in Hrun.
  assert (Hfree : forall a,
    slot_is_free [mkBusy nine (nine + 1 * hour + 30 * minute)]
      (mkSlot a (a + hour)) <-> nine + 1 * hour + 30 * minute <= a \/
                                 a + hour <= nine).
  { intros a. rewrite slot_is_free_spec. split.
    - intros H. specialize (H _ ltac:(left)). unfold overlaps in H.
      cbn [fs_start fs_end busy_start busy_end] in H. lia.
    - intros H b ->%list_elem_of_singleton. unfold overlaps.
      cbn [fs_start fs_end busy_start busy_end]. lia. }
  assert (Hm : minute * 60 = hour) by reflexivity.
  rewrite 2!filter_cons_False in Hrun by (rewrite Hfree; lia).
  rewrite 7!filter_cons_True in Hrun by (rewrite Hfree; lia).
  rewrite filter_nil in Hrun.
  replace (nine + hour + hour) with (nine + 2 * hour) in Hrun by lia.
  replace (nine + 2 * hour + hour) with (nine + 3 * hour) in Hrun by lia.
  replace (nine + 3 * hour + hour) with (nine + 4 * hour) in Hrun by lia.
  replace (nine + 4 * hour + hour) with (nine + 5 * hour) in Hrun by lia.
  replace (nine + 5 * hour + hour) with (nine + 6 * hour) in Hrun by lia.
  replace (nine + 6 * hour + hour) with (nine + 7 * hour) in Hrun by lia.
  replace (nine + 7 * hour + hour) with (nine + 8 * hour) in Hrun by lia.
  replace (nine + 8 * hour + hour) with (nine + 9 * hour) in Hrun by lia.
  exact Hrun.
Qed.

Lemma scenario_result_witness :
  yields (mkWindow (at_ 9 0) (at_ 18 0)) [mkBusy (at_ 9 0) (at_ 10 30)] hour
    (Returned
      [mkSlot (at_ 11 0) (at_ 12 0); mkSlot (at_ 12 0) (at_ 13 0);
       mkSlot (at_ 13 0) (at_ 14 0); mkSlot (at_ 14 0) (at_ 15 0);
       mkSlot (at_ 15 0) (at_ 16 0); mkSlot (at_ 16 0) (at_ 17 0);
       mkSlot (at_ 17 0) (at_ 18 0)]).
Proof.
  apply (scenario_result (at_ 13 20)).
  vm_compute. split; discriminate.
Defined.

(** Every slot of a result is one slot duration long and starts within
    the window; it ends within the window when the window length is an
    exact multiple of the slot duration. *)
Lemma free_slot_invariant window busy d :
  0 < d ->
  (forall r, yields window busy d (Returned r) ->
     forall s, s ∈ r ->
       fs_end s - fs_start s = d /\
       start_time window <= fs_start s /\
       fs_start s < end_time window /\
       ((d | end_time window - start_time window) ->
          fs_end s <= end_time window)) /\
  (in_range window d -> exists r, yields window busy d (Returned r)).
Proof.
  intros Hd. split; [|intros Hin; eexists; now apply yields_total].
  intros r Hrun s Hs. rewrite (yields_closed_form _ _ _ _ Hd Hrun) in Hs.
  apply list_elem_of_filter in Hs as [_ Hs].
  destruct (window_candidate_bounds _ _ _ Hd Hs) as ([? ?] & ? & ?).
  repeat split; [lia|assumption..].
Qed.

(** C7. For a positive slot duration, the single busy interval
    [[window.start, window.start + slot_duration)] excludes the first
    candidate only: the result is the result for no busy interval without
    its first slot. *)
Theorem busy_first_slot_excludes_first_only window d :
  0 < d ->
  (forall r0, yields window [] d (Returned r0) ->
     yields window [mkBusy (start_time window) (start_time window + d)] d
       (Returned (tail r0))) /\
  (in_range window d -> exists r0, yields window [] d (Returned r0)).
Proof.
  intros Hd. split; [|intros Hin; eexists; now apply yields_total].
  intros r0 Hrun0.
  pose proof (yields_returned _ _ _ _ Hd Hrun0
                [mkBusy (start_time window) (start_time window + d)]) as Hrun.
  rewrite (yields_closed_form _ _ _ _ Hd Hrun0), filter_free_nil.
  unfold window_candidates in *.
  destruct (window_count window d) as [|n]; [exact Hrun|].
  simpl candidates in *. simpl tail.
  rewrite filter_cons_False in Hrun.
  2: { rewrite slot_is_free_spec. intros H. apply (H _ ltac:(left)).
       unfold overlaps. simpl. lia. }
  rewrite (filter_elem_iff _ (slot_is_free [])), filter_free_nil in Hrun;
    [exact Hrun|].
  intros s (k & _ & ->)%elem_of_candidates. split; [reflexivity|].
  intros _. apply slot_is_free_spec. intros b ->%list_elem_of_singleton.
  unfold overlaps. simpl. nia.
Qed.

Lemma busy_first_slot_excludes_first_only_witness :
  (forall r0,
     yields (mkWindow (at_ 9 0) (at_ 12 0)) [] hour (Returned r0) ->
     yields (mkWindow (at_ 9 0) (at_ 12 0))
       [mkBusy (at_ 9 0) (at_ 9 0 + hour)] hour (Returned (tail r0))) /\
  (in_range (mkWindow (at_ 9 0) (at_ 12 0)) hour ->
   exists r0, yields (mkWindow (at_ 9 0) (at_ 12 0)) [] hour (Returned r0)).
Proof.
  apply (busy_first_slot_excludes_first_only
           (mkWindow (at_ 9 0) (at_ 12 0)) hour).
  reflexivity.
Defined.

(** One more busy interval that ends at or before the start of the
    window, or that starts at or after its end when the window length is
    an exact multiple of the slot duration, leaves the result unchanged. *)
Lemma busy_outside_window_no_effect window busy1 b busy2 d :
  0 < d ->
  busy_end b <= start_time window \/
  (end_time window <= busy_start b /\
   (d | end_time window - start_time window)) ->
  (forall r, yields window (busy1 ++ b :: busy2) d (Returned r) <->
             yields window (busy1 ++ busy2) d (Returned r)) /\
  (in_range window d ->
   exists r, yields window (busy1 ++ b :: busy2) d (Returned r)).
Proof.
  intros Hd Hout. split; [|intros Hin; eexists; now apply yields_total].
  assert (Hsame :
    filter (slot_is_free (busy1 ++ b :: busy2)) (window_candidates window d)
    = filter (slot_is_free (busy1 ++ busy2)) (window_candidates window d)).
  { apply filter_elem_iff. intros s Hs. rewrite slot_is_free_insert.
    destruct (window_candidate_bounds _ _ _ Hd Hs) as ([? ?] & ? & Hend).
    assert (~ overlaps s b); [|tauto].
    unfold overlaps. destruct Hout as [?|[? Hdiv]]; [lia|].
    specialize (Hend Hdiv). lia. }
  intros r. split; intros Hrun.
  - rewrite (yields_closed_form _ _ _ _ Hd Hrun), Hsame.
    exact (yields_returned _ _ _ _ Hd Hrun (busy1 ++ busy2)).
  - rewrite (yields_closed_form _ _ _ _ Hd Hrun), <- Hsame.
    exact (yields_returned _ _ _ _ Hd Hrun (busy1 ++ b :: busy2)).
Qed.

(** C10. For a positive slot duration the result is antitone in the busy
    intervals: with one more busy interval, anywhere in the list, the
    result is a subsequence of the result without it, so every slot of the
    new result is a slot of the old one and the surviving slots keep their
    order.  Either run returns when the other does. *)
Theorem more_busy_fewer_slots window busy1 b busy2 d :
  0 < d ->
  (forall r', yields window (busy1 ++ b :: busy2) d (Returned r') ->
     exists r, yields window (busy1 ++ busy2) d (Returned r) /\
       r' `sublist_of` r /\ forall s, s ∈ r' -> s ∈ r) /\
  (forall r, yields window (busy1 ++ busy2) d (Returned r) ->
     exists r', yields window (busy1 ++ b :: busy2) d (Returned r') /\
       r' `sublist_of` r /\ forall s, s ∈ r' -> s ∈ r) /\
  (in_range window d ->
   exists r', yields window (busy1 ++ b :: busy2) d (Returned r')).
Proof.
  intros Hd.
  assert (Hsub :
    filter (slot_is_free (busy1 ++ b :: busy2)) (window_candidates window d)
    `sublist_of`
    filter (slot_is_free (busy1 ++ busy2)) (window_candidates window d)).
  { apply filter_sublist_impl. intros s _ Hs.
    now apply slot_is_free_insert in Hs as [Hs _]. }
  split; [|split; [|intros Hin; eexists; now apply yields_total]].
  - intros r' Hrun. eexists. split; [|split].
    + exact (yields_returned _ _ _ _ Hd Hrun (busy1 ++ busy2)).
    + rewrite (yields_closed_form _ _ _ _ Hd Hrun). exact Hsub.
    + rewrite (yields_closed_form _ _ _ _ Hd Hrun).
      apply sublist_subseteq, Hsub.
  - intros r Hrun. eexists. split; [|split].
    + exact (yields_returned _ _ _ _ Hd Hrun (busy1 ++ b :: busy2)).
    + rewrite (yields_closed_form _ _ _ _ Hd Hrun). exact Hsub.
    + rewrite (yields_closed_form _ _ _ _ Hd Hrun).
      apply sublist_subseteq, Hsub.
Qed.

Lemma more_busy_fewer_slots_witness :
  (forall r',
     yields (mkWindow (at_ 9 0) (at_ 18 0))
       ([mkBusy (at_ 9 0) (at_ 10 30)] ++ mkBusy (at_ 13 0) (at_ 14 0) :: [])
       hour (Returned r') ->
     exists r,
       yields (mkWindow (at_ 9 0) (at_ 18 0))
         ([mkBusy (at_ 9 0) (at_ 10 30)] ++ []) hour (Returned r) /\
       r' `sublist_of` r /\ forall s, s ∈ r' -> s ∈ r) /\
  (forall r,
     yields (mkWindow (at_ 9 0) (at_ 18 0))
       ([mkBusy (at_ 9 0) (at_ 10 30)] ++ []) hour (Returned r) ->
     exists r',
       yields (mkWindow (at_ 9 0) (at_ 18 0))
         ([mkBusy (at_ 9 0) (at_ 10 30)] ++ mkBusy (at_ 13 0) (at_ 14 0) :: [])
         hour (Returned r') /\
       r' `sublist_of` r /\ forall s, s ∈ r' -> s ∈ r) /\
  (in_range (mkWindow (at_ 9 0) (at_ 18 0)) hour ->
   exists r',
     yields (mkWindow (at_ 9 0) (at_ 18 0))
       ([mkBusy (at_ 9 0) (at_ 10 30)] ++ mkBusy (at_ 13 0) (at_ 14 0) :: [])
       hour (Returned r')).
Proof.
  apply (more_busy_fewer_slots (mkWindow (at_ 9 0) (at_ 18 0))
           [mkBusy (at_ 9 0) (at_ 10 30)] (mkBusy (at_ 13 0) (at_ 14 0)) []
           hour).
  reflexivity.
Defined.

(** ** Further properties of the loop *)

(** The result depends on the busy intervals as a set only: neither their
    order nor repetitions matter. *)
Theorem busy_order_is_irrelevant window busy busy' d r :
  0 < d -> (forall b, b ∈ busy <-> b ∈ busy') ->
  yields window busy d (Returned r) -> yields window busy' d (Returned r).
Proof.
  intros Hd Hset Hrun.
  rewrite (yields_closed_form _ _ _ _ Hd Hrun).
  rewrite (filter_elem_iff _ (slot_is_free busy')).
  - exact (yields_returned _ _ _ _ Hd Hrun busy').
  - intros s _. rewrite !slot_is_free_spec.
    split; intros H b Hb; apply H, Hset, Hb.
Qed.

Lemma busy_order_is_irrelevant_witness :
  yields (mkWindow (at_ 9 0) (at_ 12 0))
    [mkBusy (at_ 11 0) (at_ 11 30); mkBusy (at_ 9 15) (at_ 9 30);
     mkBusy (at_ 11 0) (at_ 11 30)] hour
    (Returned [mkSlot (at_ 10 0) (at_ 11 0)]).
Proof.
  apply (busy_order_is_irrelevant (mkWindow (at_ 9 0) (at_ 12 0))
           [mkBusy (at_ 9 15) (at_ 9 30); mkBusy (at_ 11 0) (at_ 11 30)]).
  - reflexivity.
  - intros b. rewrite !elem_of_cons. tauto.
  - exists 4%nat. reflexivity.
Defined.

(** Two lists of busy intervals together: the result keeps, in order,
    the slots of the result for the first list that are free of the
    second; a slot is in it exactly when it is in both results. *)
Theorem busy_lists_compose window busy1 busy2 d r1 :
  0 < d -> yields window busy1 d (Returned r1) ->
  yields window (busy1 ++ busy2) d
    (Returned (filter (slot_is_free busy2) r1)) /\
  forall r2, yields window busy2 d (Returned r2) ->
    forall s, s ∈ filter (slot_is_free busy2) r1 <-> s ∈ r1 /\ s ∈ r2.
Proof.
  intros Hd Hrun. rewrite (yields_closed_form _ _ _ _ Hd Hrun). split.
  - rewrite list_filter_filter.
    rewrite (filter_elem_iff
               (fun s => slot_is_free busy2 s /\ slot_is_free busy1 s)
               (slot_is_free (busy1 ++ busy2))).
    + exact (yields_returned _ _ _ _ Hd Hrun (busy1 ++ busy2)).
    + intros s _. rewrite !slot_is_free_spec. split.
      * intros [H2 H1] b [Hb|Hb]%elem_of_app; auto.
      * intros H. split; intros b Hb; apply H; rewrite elem_of_app; auto.
  - intros r2 Hrun2 s. rewrite (yields_closed_form _ _ _ _ Hd Hrun2).
    rewrite !list_elem_of_filter. tauto.
Qed.

Lemma busy_lists_compose_witness :
  yields (mkWindow (at_ 9 0) (at_ 12 0))
    ([mkBusy (at_ 9 15) (at_ 9 30)] ++ [mkBusy (at_ 11 0) (at_ 11 30)]) hour
    (Returned
       (filter (slot_is_free [mkBusy (at_ 11 0) (at_ 11 30)])
          [mkSlot (at_ 10 0) (at_ 11 0); mkSlot (at_ 11 0) (at_ 12 0)])) /\
  forall r2,
    yields (mkWindow (at_ 9 0) (at_ 12 0)) [mkBusy (at_ 11 0) (at_ 11 30)]
      hour (Returned r2) ->
    forall s,
      s ∈ filter (slot_is_free [mkBusy (at_ 11 0) (at_ 11 30)])
            [mkSlot (at_ 10 0) (at_ 11 0); mkSlot (at_ 11 0) (at_ 12 0)]
      <-> s ∈ [mkSlot (at_ 10 0) (at_ 11 0); mkSlot (at_ 11 0) (at_ 12 0)]
          /\ s ∈ r2.
Proof.
  apply (busy_lists_compose (mkWindow (at_ 9 0) (at_ 12 0))
           [mkBusy (at_ 9 15) (at_ 9 30)] [mkBusy (at_ 11 0) (at_ 11 30)]
           hour).
  - reflexivity.
  - exists 4%nat. reflexivity.
Defined.

Lemma candidates_shift d delta n cur :
  candidates d n (cur + delta) = shift_slot delta <$> candidates d n cur.
Proof.
  revert cur. induction n as [|n IH]; intros cur; [reflexivity|].
  simpl. replace (cur + delta + d) with (cur + d + delta) by lia.
  rewrite IH. unfold shift_slot at 2. simpl. reflexivity.
Qed.

Lemma slot_is_free_shift delta busy s :
  slot_is_free (shift_busy delta <$> busy) (shift_slot delta s) <->
  slot_is_free busy s.
Proof.
  rewrite !slot_is_free_spec. split.
  - intros H b Hb. specialize (H (shift_busy delta b)).
    unfold overlaps in *. simpl in H.
    intros Ho. apply H; [|lia]. apply list_elem_of_fmap. eauto.
  - intros H b' (b & -> & Hb)%list_elem_of_fmap. specialize (H b Hb).
    unfold overlaps in *. simpl. lia.
Qed.

Lemma filter_free_shift delta busy (l : list FreeSlot) :
  filter (slot_is_free (shift_busy delta <$> busy)) (shift_slot delta <$> l)
  = shift_slot delta <$> filter (slot_is_free busy) l.
Proof.
  induction l as [|s l IH]; [reflexivity|]. rewrite fmap_cons.
  destruct (decide (slot_is_free busy s)) as [Hfree|Hbusy].
  - rewrite (filter_cons_True _ s) by exact Hfree.
    rewrite filter_cons_True by (now apply slot_is_free_shift).
    now rewrite fmap_cons, IH.
  - rewrite (filter_cons_False _ s) by exact Hbusy.
    rewrite filter_cons_False; [exact IH|].
    intros H. now apply Hbusy, (slot_is_free_shift delta).
Qed.

(** The computation depends on the times relative to the window only:
    move the window and the busy intervals by the same amount and the
    result moves with them, as long as the candidates stay within the
    range of [datetime]. *)
Theorem free_slots_shift window busy d delta r :
  0 < d -> yields window busy d (Returned r) ->
  in_range (shift_window delta window) d ->
  yields (shift_window delta window) (shift_busy delta <$> busy) d
    (Returned (shift_slot delta <$> r)).
Proof.
  intros Hd Hrun Hin. rewrite (yields_closed_form _ _ _ _ Hd Hrun).
  pose proof (yields_total _ (shift_busy delta <$> busy) _ Hd Hin) as Hrun'.
  unfold window_candidates, window_count, candidate_count in *.
  simpl in Hrun'.
  replace (end_time window + delta - (start_time window + delta) + d - 1)
    with (end_time window - start_time window + d - 1) in Hrun' by lia.
  now rewrite candidates_shift, filter_free_shift in Hrun'.
Qed.

Lemma free_slots_shift_witness :
  yields (shift_window day (mkWindow (at_ 9 0) (at_ 12 0)))
    (shift_busy day <$> [mkBusy (at_ 9 15) (at_ 9 30)]) hour
    (Returned
       (shift_slot day <$>
          [mkSlot (at_ 10 0) (at_ 11 0); mkSlot (at_ 11 0) (at_ 12 0)])).
Proof.
  apply (free_slots_shift (mkWindow (at_ 9 0) (at_ 12 0))
           [mkBusy (at_ 9 15) (at_ 9 30)] hour day).
  - reflexivity.
  - exists 4%nat. reflexivity.
  - split; vm_compute; discriminate.
Defined.

(** A busy interval that covers the whole window leaves no free slot. *)
Theorem covered_window_has_no_slot window busy d b r :
  0 < d -> b ∈ busy ->
  busy_start b <= start_time window -> end_time window <= busy_end b ->
  yields window busy d (Returned r) -> r = [].
Proof.
  intros Hd Hb Hlo Hhi Hrun. rewrite (yields_closed_form _ _ _ _ Hd Hrun).
  destruct (filter _ _) as [|s l] eqn:Hf; [reflexivity|exfalso].
  assert (Hs : s ∈ filter (slot_is_free busy) (window_candidates window d))
    by (rewrite Hf; left).
  apply list_elem_of_filter in Hs as [Hfree Hs].
  destruct (window_candidate_bounds _ _ _ Hd Hs) as ([? ?] & ? & _).
  apply (proj1 (slot_is_free_spec busy s) Hfree b Hb).
  unfold overlaps. lia.
Qed.

Lemma covered_window_has_no_slot_witness :
  yields (mkWindow (at_ 9 0) (at_ 18 0))
    [mkBusy (at_ 8 0) (at_ 8 30); mkBusy (at_ 8 45) (at_ 19 0)] hour
    (Returned []) /\
  ([] : list FreeSlot) = [].
Proof.
  assert (Hrun : yields (mkWindow (at_ 9 0) (at_ 18 0))
                   [mkBusy (at_ 8 0) (at_ 8 30); mkBusy (at_ 8 45) (at_ 19 0)]
                   hour (Returned []))
    by (exists 10%nat; reflexivity).
  split; [exact Hrun|].
  apply (covered_window_has_no_slot (mkWindow (at_ 9 0) (at_ 18 0))
           [mkBusy (at_ 8 0) (at_ 8 30); mkBusy (at_ 8 45) (at_ 19 0)] hour
           (mkBusy (at_ 8 45) (at_ 19 0)) []).
  - reflexivity.
  - right. left.
  - vm_compute. discriminate.
  - vm_compute. discriminate.
  - exact Hrun.
Defined.

Lemma sublist_lookup_indices {A} (l k : list A) :
  l `sublist_of` k ->
  forall i j x y, (i < j)%nat -> l !! i = Some x -> l !! j = Some y ->
    exists i' j', (i' < j')%nat /\ k !! i' = Some x /\ k !! j' = Some y.
Proof.
  induction 1 as [|z l k Hsub IH|z l k Hsub IH]; intros i j x y Hij Hi Hj.
  - discriminate.
  - destruct j as [|j]; [lia|]. destruct i as [|i].
    + simpl in Hi, Hj. apply list_elem_of_lookup_2 in Hj.
      apply (sublist_subseteq _ _ Hsub), list_elem_of_lookup in Hj as [j' Hj'].
      exists 0%nat, (S j'). split; [lia|]. split; assumption.
    + destruct (IH i j x y ltac:(lia) Hi Hj) as (i' & j' & ? & ? & ?).
      exists (S i'), (S j'). split; [lia|]. split; assumption.
  - destruct (IH i j x y Hij Hi Hj) as (i' & j' & ? & ? & ?).
    exists (S i'), (S j'). split; [lia|]. split; assumption.
Qed.

(** Whatever is busy, the result has at most one slot per candidate, and
    its slots are in strictly increasing order and pairwise disjoint. *)
Theorem free_slots_ordered window busy d r :
  0 < d -> yields window busy d (Returned r) ->
  (length r <= window_count window d)%nat /\
  chronological r /\ non_overlapping r /\ NoDup r.
Proof.
  intros Hd Hrun. rewrite (yields_closed_form _ _ _ _ Hd Hrun).
  pose proof (sublist_filter (slot_is_free busy) (window_candidates window d))
    as Hsub.
  assert (Hchron : chronological
            (filter (slot_is_free busy) (window_candidates window d))).
  { intros i j s t Hij Hi Hj.
    destruct (sublist_lookup_indices _ _ Hsub i j s t Hij Hi Hj)
      as (i' & j' & Hij' & Hi' & Hj').
    exact (candidates_chronological d _ _ Hd i' j' s t Hij' Hi' Hj'). }
  split; [|split; [exact Hchron|split]].
  - apply sublist_length in Hsub. unfold window_candidates in Hsub at 2.
    now rewrite length_candidates in Hsub.
  - intros i j s t Hij Hi Hj.
    destruct (sublist_lookup_indices _ _ Hsub i j s t Hij Hi Hj)
      as (i' & j' & Hij' & Hi' & Hj').
    exact (candidates_non_overlapping d _ _ Hd i' j' s t Hij' Hi' Hj').
  - apply NoDup_alt. intros i j s Hi Hj.
    destruct (Nat.lt_trichotomy i j) as [Hlt|[Heq|Hgt]]; [|exact Heq|].
    + pose proof (Hchron i j s s Hlt Hi Hj). lia.
    + pose proof (Hchron j i s s Hgt Hj Hi). lia.
Qed.

Lemma free_slots_ordered_witness :
  (length [mkSlot (at_ 10 0) (at_ 11 0); mkSlot (at_ 11 0) (at_ 12 0)]
   <= window_count (mkWindow (at_ 9 0) (at_ 12 0)) hour)%nat /\
  chronological [mkSlot (at_ 10 0) (at_ 11 0); mkSlot (at_ 11 0) (at_ 12 0)] /\
  non_overlapping [mkSlot (at_ 10 0) (at_ 11 0); mkSlot (at_ 11 0) (at_ 12 0)]
  /\ NoDup [mkSlot (at_ 10 0) (at_ 11 0); mkSlot (at_ 11 0) (at_ 12 0)].
Proof.
  apply (free_slots_ordered (mkWindow (at_ 9 0) (at_ 12 0))
           [mkBusy (at_ 9 15) (at_ 9 30)] hour).
  - reflexivity.
  - exists 4%nat. reflexivity.
Defined.

Lemma filter_one_candidate d n cur (k : nat) b :
  0 < d -> (k < n)%nat ->
  busy_start b = cur + Z.of_nat k * d -> busy_end b = busy_start b + d ->
  filter (slot_is_free [b]) (candidates d n cur)
  = delete k (candidates d n cur).
Proof.
  intros Hd. revert cur k. induction n as [|n IH]; intros cur k Hk Hs He;
    [lia|].
  simpl candidates. destruct k as [|k].
  - rewrite filter_cons_False.
    2: { rewrite slot_is_free_spec. intros H. apply (H b ltac:(left)).
         unfold overlaps. simpl. lia. }
    simpl. rewrite (filter_elem_iff _ (slot_is_free [])), filter_free_nil;
      [reflexivity|].
    intros s (j & _ & ->)%elem_of_candidates. split; [reflexivity|].
    intros _. apply slot_is_free_spec. intros b' ->%list_elem_of_singleton.
    unfold overlaps. simpl. nia.
  - rewrite filter_cons_True.
    2: { apply slot_is_free_spec. intros b' ->%list_elem_of_singleton.
         unfold overlaps. simpl. nia. }
    simpl. f_equal. apply IH; lia.
Qed.

(** A busy interval that is exactly the [k]-th candidate removes that
    candidate and no other: the candidate before it and the one after it,
    which only touch it, stay free. *)
Theorem busy_candidate_excludes_itself_only window d (k : nat) r0 :
  0 < d -> yields window [] d (Returned r0) -> (k < length r0)%nat ->
  yields window
    [mkBusy (start_time window + Z.of_nat k * d)
            (start_time window + Z.of_nat k * d + d)] d
    (Returned (delete k r0)).
Proof.
  intros Hd Hrun0 Hk.
  pose proof (yields_returned _ _ _ _ Hd Hrun0
    [mkBusy (start_time window + Z.of_nat k * d)
            (start_time window + Z.of_nat k * d + d)]) as Hrun.
  rewrite (yields_closed_form _ _ _ _ Hd Hrun0), filter_free_nil in Hk |- *.
  unfold window_candidates in *. rewrite length_candidates in Hk.
  rewrite (filter_one_candidate d _ _ k) in Hrun
    by (assumption || reflexivity).
  exact Hrun.
Qed.

Lemma busy_candidate_excludes_itself_only_witness :
  yields (mkWindow (at_ 9 0) (at_ 12 0))
    [mkBusy (at_ 9 0 + Z.of_nat 1 * hour) (at_ 9 0 + Z.of_nat 1 * hour + hour)]
    hour
    (Returned
       (delete 1%nat
          [mkSlot (at_ 9 0) (at_ 10 0); mkSlot (at_ 10 0) (at_ 11 0);
           mkSlot (at_ 11 0) (at_ 12 0)])).
Proof.
  apply (busy_candidate_excludes_itself_only
           (mkWindow (at_ 9 0) (at_ 12 0)) hour 1).
  - reflexivity.
  - exists 4%nat. reflexivity.
  - simpl. lia.
Defined.

(** * The other handlers *)

(** ** Strings *)

Lemma lstrip_nil s : lstrip s = [] <-> blank s.
Proof.
  unfold blank. induction s as [|c s IH]; simpl.
  - split; [constructor|reflexivity].
  - destruct (isspace c) eqn:Hc.
    + rewrite IH. split; [now constructor|]. now inversion 1.
    + split; [discriminate|]. inversion 1; congruence.
Qed.

Lemma lstrip_blank s : blank (lstrip s) -> lstrip s = [].
Proof.
  unfold blank. induction s as [|c s IH]; simpl; [reflexivity|].
  destruct (isspace c) eqn:Hc; [exact IH|].
  inversion 1; congruence.
Qed.

Lemma blank_reverse s : blank (reverse s) <-> blank s.
Proof. unfold blank. now rewrite Forall_reverse. Qed.

(** [s.strip()] is empty exactly when [s] holds nothing but white
    space. *)
Lemma strip_nil s : strip s = [] <-> blank s.
Proof.
  unfold strip, rstrip. split.
  - intros H. apply (f_equal reverse) in H. rewrite reverse_involutive in H.
    change (reverse []) with (@nil N) in H.
    apply lstrip_nil, blank_reverse, lstrip_blank in H.
    now apply lstrip_nil.
  - intros H. apply lstrip_nil in H. rewrite H. reflexivity.
Qed.

Lemma read_field_missing m key :
  missing m key -> read_field (VDict m) key = Value [].
Proof.
  unfold read_field, dict_get. intros [->|(raw & -> & Hraw)]; simpl.
  - reflexivity.
  - now apply strip_nil in Hraw as ->.
Qed.

Lemma read_field_given m key s :
  given m key s -> read_field (VDict m) key = Value s.
Proof.
  unfold read_field, dict_get. intros (raw & -> & <- & _). reflexivity.
Qed.

Lemma read_field_textual m key :
  textual m key -> exists s, read_field (VDict m) key = Value s.
Proof.
  unfold read_field, dict_get. intros [->|(raw & ->)]; simpl; eauto.
Qed.

(** ** Running a handler *)

Lemma run_bind {A B} w sent (p : prog A) (f : A -> prog B) :
  run w sent (p ≫= f)
  = match run w sent p with
    | (Value a, sent') => run w sent' (f a)
    | (Raises e, sent') => (Raises e, sent')
    end.
Proof.
  revert sent. induction p as [a|e|rq k IH]; intros sent; simpl; auto.
Qed.

Lemma run_try_except w sent (p : prog response) :
  run w sent (try_except p)
  = match run w sent p with
    | (Value r, sent') => (Value r, sent')
    | (Raises e, sent') => (Value (Err500 e), sent')
    end.
Proof.
  revert sent. induction p as [a|e|rq k IH]; intros sent; simpl; auto.
Qed.

Lemma run_lift {A} w sent (r : result A) : run w sent (lift r) = (r, sent).
Proof. now destruct r. Qed.

Lemma run_execute w sent rq :
  run w sent (execute rq) = (w sent rq, sent ++ [rq]).
Proof. unfold execute. simpl. apply run_lift. Qed.

Lemma read_field_shape data key :
  (exists s, read_field data key = Value s) \/
  read_field data key = Raises AttributeError.
Proof.
  unfold read_field, dict_get. destruct data; simpl; auto.
  destruct (default _ _); simpl; eauto.
Qed.

Lemma read_field_not_str m key v :
  m !! lit key = Some v -> (forall s, v <> VStr s) ->
  read_field (VDict m) key = Raises AttributeError.
Proof.
  unfold read_field, dict_get. intros -> Hv. simpl.
  destruct v; simpl; try reflexivity. now destruct (Hv s).
Qed.

Lemma read_field_cases m key :
  textual m key ->
  (missing m key /\ read_field (VDict m) key = Value []) \/
  (exists s, given m key s /\ ~ missing m key /\
             read_field (VDict m) key = Value s /\ s <> []).
Proof.
  intros [Hnone|(raw & Hraw)].
  - left. split; [now left|]. apply read_field_missing. now left.
  - destruct (decide (strip raw = [])) as [Hs|Hs].
    + left. assert (missing m key).
      { right. exists raw. split; [exact Hraw|]. now apply strip_nil. }
      split; [assumption|]. now apply read_field_missing.
    + right. exists (strip raw).
      assert (given m key (strip raw)) by (exists raw; auto).
      split; [assumption|]. split; [|split; [|exact Hs]].
      * intros [Hnone|(raw' & Hraw' & Hblank)]; [congruence|].
        rewrite Hraw in Hraw'. injection Hraw' as <-.
        now apply Hs, strip_nil.
      * now apply read_field_given.
Qed.

(** ** [create_event] *)

(** When a required field is absent or blank, [create_event] answers 400
    with the name of the first such field, in the order client_name,
    client_email, start_time, end_time, and sends nothing to the
    calendar. *)
Theorem create_event_missing_field w m :
  textual m "client_name" -> textual m "client_email" ->
  textual m "start_time" -> textual m "end_time" ->
  textual m "description" ->
  let answer := run w [] (create_event (Value (VDict m))) in
  (missing m "client_name" ->
     answer = (Value (Bad400 (lit "client_name required")), [])) /\
  (~ missing m "client_name" -> missing m "client_email" ->
     answer = (Value (Bad400 (lit "client_email required")), [])) /\
  (~ missing m "client_name" -> ~ missing m "client_email" ->
   missing m "start_time" ->
     answer = (Value (Bad400 (lit "start_time required")), [])) /\
  (~ missing m "client_name" -> ~ missing m "client_email" ->
   ~ missing m "start_time" -> missing m "end_time" ->
     answer = (Value (Bad400 (lit "end_time required")), [])).
Proof.
  intros Hn He Hs Hd Hdesc answer. subst answer.
  unfold create_event. rewrite run_try_except.
  destruct (read_field_cases m _ Hn) as [[Mn Rn]|(n & _ & Mn & Rn & Nn)];
  destruct (read_field_cases m _ He) as [[Me Re]|(e & _ & Me & Re & Ne)];
  destruct (read_field_cases m _ Hs) as [[Ms Rs]|(s & _ & Ms & Rs & Ns)];
  destruct (read_field_cases m _ Hd) as [[Md Rd]|(d & _ & Md & Rd & Nd)];
  destruct (read_field_cases m _ Hdesc) as [[_ Rx]|(x & _ & _ & Rx & _)];
  simpl; rewrite Rn, Re, Rs, Rd, Rx; simpl;
  repeat (case_decide; [try congruence|try congruence]);
  repeat split; intros; try reflexivity; try tauto.
Qed.


Lemma create_event_missing_field_witness :
  let m := dict_items [("client_name", str "Ada"); ("client_email", str " ")] in
  let answer := run example_service [] (create_event (Value (VDict m))) in
  (missing m "client_name" ->
     answer = (Value (Bad400 (lit "client_name required")), [])) /\
  (~ missing m "client_name" -> missing m "client_email" ->
     answer = (Value (Bad400 (lit "client_email required")), [])) /\
  (~ missing m "client_name" -> ~ missing m "client_email" ->
   missing m "start_time" ->
     answer = (Value (Bad400 (lit "start_time required")), [])) /\
  (~ missing m "client_name" -> ~ missing m "client_email" ->
   ~ missing m "start_time" -> missing m "end_time" ->
     answer = (Value (Bad400 (lit "end_time required")), [])).
Proof.
  apply (create_event_missing_field example_service
           (dict_items [("client_name", str "Ada");
                        ("client_email", str " ")])).
  - right. exists (lit "Ada"). vm_compute. reflexivity.
  - right. exists (lit " "). vm_compute. reflexivity.
  - left. vm_compute. reflexivity.
  - left. vm_compute. reflexivity.
  - left. vm_compute. reflexivity.
Defined.


(** The handler has answered: close the case with what was sent. *)
Ltac answered :=
  simpl; eexists _, _; (split; [reflexivity|]); (split; [eauto 8|]);
  split; intros; try discriminate; try reflexivity.

(** Whatever the request and whatever the calendar service answers,
    [create_event] answers (it never lets an exception out) and sends at
    most [get_calendar_service] followed by one insert into the primary
    calendar with notifications to all.  A 400 answer means that nothing
    was sent; a 200 answer means that the insert was sent and
    acknowledged. *)
Theorem create_event_requests w request_json :
  exists resp sent,
    run w [] (create_event request_json) = (Value resp, sent) /\
    (sent = [] \/ sent = [get_calendar_service] \/
     exists body,
       sent = [get_calendar_service;
               events_insert (lit "primary") body (lit "all")]) /\
    (forall msg, resp = Bad400 msg -> sent = []) /\
    (forall b, resp = Ok200 b ->
       exists body svc created,
         sent = [get_calendar_service;
                 events_insert (lit "primary") body (lit "all")] /\
         w [] get_calendar_service = Value svc /\
         w [get_calendar_service]
           (events_insert (lit "primary") body (lit "all"))
         = Value created).
Proof.
  unfold create_event. rewrite run_try_except.
  destruct request_json as [data|e]; simpl;
    [|answered].
  destruct (read_field data "client_name") as [n|?]; simpl;
    [|answered].
  destruct (read_field data "client_email") as [e|?]; simpl;
    [|answered].
  destruct (read_field data "start_time") as [s|?]; simpl;
    [|answered].
  destruct (read_field data "end_time") as [d|?]; simpl;
    [|answered].
  destruct (read_field data "description") as [x|?]; simpl;
    [|answered].
  destruct (dict_get data "timezone" _) as [tz|?]; simpl;
    [|answered].
  repeat (case_decide;
    [answered|]).
  simpl.
  destruct (w [] get_calendar_service) as [svc|?] eqn:Hsvc; simpl;
    [|answered].
  destruct (w [get_calendar_service] _) as [created|?] eqn:Hins; simpl;
    [|answered].
  destruct (getitem created "id"); simpl;
    [|answered].
  destruct (dict_get created "htmlLink" _); simpl;
    [|answered].
  destruct (getitem created "start" ≫= _); simpl;
    [|answered].
  destruct (getitem created "end" ≫= _); simpl;
    [|answered].
  eexists _, _; split; [reflexivity|]. split; [eauto|].
  split; [intros; discriminate|]. intros b _. eauto 6.
Qed.

(** A field that is present and is not a string makes [create_event]
    answer 500 with the [AttributeError] of its [.strip()], whatever the
    other fields are, required ones that are absent included; nothing is
    sent to the calendar. *)
Theorem create_event_field_not_a_string w m key v :
  key ∈ ["client_name"; "client_email"; "start_time"; "end_time";
         "description"]%string ->
  m !! lit key = Some v -> (forall s, v <> VStr s) ->
  run w [] (create_event (Value (VDict m)))
  = (Value (Err500 AttributeError), []).
Proof.
  intros Hkey Hv Hstr.
  pose proof (read_field_not_str m key v Hv Hstr) as Hbad.
  unfold create_event. rewrite run_try_except. simpl.
  destruct (read_field_shape (VDict m) "client_name") as [[? R1]|R1];
  destruct (read_field_shape (VDict m) "client_email") as [[? R2]|R2];
  destruct (read_field_shape (VDict m) "start_time") as [[? R3]|R3];
  destruct (read_field_shape (VDict m) "end_time") as [[? R4]|R4];
  destruct (read_field_shape (VDict m) "description") as [[? R5]|R5];
  rewrite ?R1; simpl; rewrite ?R2; simpl; rewrite ?R3; simpl;
  rewrite ?R4; simpl; rewrite ?R5; simpl; try reflexivity.
  exfalso. repeat (apply elem_of_cons in Hkey as [->|Hkey]; [congruence|]).
  inversion Hkey.
Qed.

Lemma create_event_field_not_a_string_witness :
  run (fun _ _ => Value VNone) []
    (create_event (Value (dict [("client_email", str "a@b.c");
                                ("description", VNone)])))
  = (Value (Err500 AttributeError), []).
Proof.
  apply (create_event_field_not_a_string _ _ "description" VNone).
  - do 4 right. left.
  - vm_compute. reflexivity.
  - discriminate.
Defined.

(** With the four required fields given, and the calendar service
    answering, [create_event] sends one insert, into the primary calendar
    and with notifications to all, of an event made of the fields without
    the white space around them; its description is never empty. When the
    answer of the insert has an id and its two times, the handler answers
    200 with them. *)
Theorem create_event_accepted w m n e s d x svc mc id ms t1 me t2 :
  given m "client_name" n -> given m "client_email" e ->
  given m "start_time" s -> given m "end_time" d ->
  read_field (VDict m) "description" = Value x ->
  let timezone := default (str "Asia/Kolkata") (m !! lit "timezone") in
  let body := create_event_body n e s d x timezone in
  let insert := events_insert (lit "primary") body (lit "all") in
  w [] get_calendar_service = Value svc ->
  w [get_calendar_service] insert = Value (VDict mc) ->
  mc !! lit "id" = Some id ->
  mc !! lit "start" = Some (VDict ms) -> ms !! lit "dateTime" = Some t1 ->
  mc !! lit "end" = Some (VDict me) -> me !! lit "dateTime" = Some t2 ->
  run w [] (create_event (Value (VDict m)))
  = (Value (Ok200 (dict
       [("success", VBool true); ("event_id", id);
        ("event_link", default (str "") (mc !! lit "htmlLink"));
        ("client_name", VStr n); ("client_email", VStr e);
        ("message",
           VStr (lit "Appointment confirmed for " ++ n
                 ++ lit ". Calendar invite sent to " ++ e));
        ("start", t1); ("end", t2)])),
     [get_calendar_service; insert]) /\
  getitem body "summary" = Value (VStr (lit "Appointment with " ++ n)) /\
  (exists text, getitem body "description" = Value (VStr text) /\
                text <> [] /\ (x <> [] -> text = x)) /\
  getitem body "attendees"
  = Value (VList [dict [("email", VStr e);
                        ("responseStatus", str "needsAction")]]) /\
  getitem body "start"
  = Value (dict [("dateTime", VStr s); ("timeZone", timezone)]) /\
  getitem body "end"
  = Value (dict [("dateTime", VStr d); ("timeZone", timezone)]).
Proof.
  intros Hn He Hs Hd Hx timezone body insert Hsvc Hins Hid Hms Ht1 Hme Ht2.
  split; [|split; [reflexivity|split; [|repeat split]]].
  - unfold create_event. rewrite run_try_except. simpl.
    rewrite (read_field_given _ _ _ Hn), (read_field_given _ _ _ He),
      (read_field_given _ _ _ Hs), (read_field_given _ _ _ Hd), Hx.
    destruct Hn as (_ & _ & _ & Hn), He as (_ & _ & _ & He),
      Hs as (_ & _ & _ & Hs), Hd as (_ & _ & _ & Hd).
    simpl. repeat (case_decide; [congruence|]). simpl.
    rewrite Hsvc. simpl. fold timezone. fold body. fold insert.
    rewrite Hins. simpl. rewrite Hid. simpl. rewrite Hms. simpl.
    rewrite Ht1. simpl. rewrite Hme. simpl. rewrite Ht2. reflexivity.
  - unfold body, create_event_body.
    destruct (decide (x = [])) as [->|Hne].
    + eexists. split; [reflexivity|]. split; [discriminate|congruence].
    + eexists. split.
      * vm_compute. destruct (decide (x = [])); [congruence|reflexivity].
      * split; [assumption|reflexivity].
Qed.


Lemma create_event_accepted_witness :
  run example_service [] (create_event (Value (VDict example_booking)))
  = (Value (Ok200 (dict
       [("success", VBool true); ("event_id", str "evt1");
        ("event_link", str "");
        ("client_name", str "Ada"); ("client_email", str "ada@example.org");
        ("message",
           str "Appointment confirmed for Ada. Calendar invite sent to ada@example.org");
        ("start", str "2024-01-01T10:00:00");
        ("end", str "2024-01-01T11:00:00")])),
     [get_calendar_service;
      events_insert (lit "primary")
        (create_event_body (lit "Ada") (lit "ada@example.org")
           (lit "2024-01-01T10:00:00") (lit "2024-01-01T11:00:00") []
           (str "Asia/Kolkata"))
        (lit "all")]).
Proof.
  destruct (create_event_accepted example_service example_booking
              (lit "Ada") (lit "ada@example.org")
              (lit "2024-01-01T10:00:00") (lit "2024-01-01T11:00:00") []
              VNone
              (<[lit "id" := str "evt1"]>
                 (dict_items
                    [("summary", str "Appointment with Ada");
                     ("description", str "Appointment booked for Ada");
                     ("start", dict [("dateTime", str "2024-01-01T10:00:00");
                                     ("timeZone", str "Asia/Kolkata")]);
                     ("end", dict [("dateTime", str "2024-01-01T11:00:00");
                                   ("timeZone", str "Asia/Kolkata")]);
                     ("attendees",
                        VList [dict [("email", str "ada@example.org");
                                     ("responseStatus", str "needsAction")]]);
                     ("reminders",
                        dict [("useDefault", VBool false);
                              ("overrides",
                                 VList [dict [("method", str "email");
                                              ("minutes", VInt 1440)];
                                        dict [("method", str "popup");
                                              ("minutes", VInt 30)]])])]))
              (str "evt1")
              (dict_items [("dateTime", str "2024-01-01T10:00:00");
                           ("timeZone", str "Asia/Kolkata")])
              (str "2024-01-01T10:00:00")
              (dict_items [("dateTime", str "2024-01-01T11:00:00");
                           ("timeZone", str "Asia/Kolkata")])
              (str "2024-01-01T11:00:00")) as [Hrun _].
  - exists (lit " Ada "). vm_compute. repeat split; discriminate.
  - exists (lit "ada@example.org"). vm_compute. repeat split; discriminate.
  - exists (lit "2024-01-01T10:00:00"). vm_compute.
    repeat split; discriminate.
  - exists (lit "2024-01-01T11:00:00"). vm_compute.
    repeat split; discriminate.
  - vm_compute. reflexivity.
  - reflexivity.
  - vm_compute. reflexivity.
  - vm_compute. reflexivity.
  - vm_compute. reflexivity.
  - vm_compute. reflexivity.
  - vm_compute. reflexivity.
  - vm_compute. reflexivity.
  - vm_compute in Hrun |- *. exact Hrun.
Defined.

(** An insert that is acknowledged without an id is answered with 500,
    although the event has been handed to the calendar. *)
Theorem create_event_answer_without_id w m n e s d x svc created err :
  given m "client_name" n -> given m "client_email" e ->
  given m "start_time" s -> given m "end_time" d ->
  read_field (VDict m) "description" = Value x ->
  let timezone := default (str "Asia/Kolkata") (m !! lit "timezone") in
  let insert :=
    events_insert (lit "primary") (create_event_body n e s d x timezone)
      (lit "all") in
  w [] get_calendar_service = Value svc ->
  w [get_calendar_service] insert = Value created ->
  getitem created "id" = Raises err ->
  run w [] (create_event (Value (VDict m)))
  = (Value (Err500 err), [get_calendar_service; insert]).
Proof.
  intros Hn He Hs Hd Hx timezone insert Hsvc Hins Hid.
  unfold create_event. rewrite run_try_except. simpl.
  rewrite (read_field_given _ _ _ Hn), (read_field_given _ _ _ He),
    (read_field_given _ _ _ Hs), (read_field_given _ _ _ Hd), Hx.
  destruct Hn as (_ & _ & _ & Hn), He as (_ & _ & _ & He),
    Hs as (_ & _ & _ & Hs), Hd as (_ & _ & _ & Hd).
  simpl. repeat (case_decide; [congruence|]). simpl.
  rewrite Hsvc. simpl. fold timezone. fold insert.
  rewrite Hins. simpl. rewrite Hid. reflexivity.
Qed.

Lemma create_event_answer_without_id_witness :
  run (fun _ _ => Value (dict [])) []
    (create_event (Value (VDict example_booking)))
  = (Value (Err500 (KeyError (lit "id"))),
     [get_calendar_service;
      events_insert (lit "primary")
        (create_event_body (lit "Ada") (lit "ada@example.org")
           (lit "2024-01-01T10:00:00") (lit "2024-01-01T11:00:00") []
           (default (str "Asia/Kolkata") (example_booking !! lit "timezone")))
        (lit "all")]).
Proof.
  apply (create_event_answer_without_id (fun _ _ => Value (dict []))
           example_booking (lit "Ada") (lit "ada@example.org")
           (lit "2024-01-01T10:00:00") (lit "2024-01-01T11:00:00") []
           (dict []) (dict [])).
  - exists (lit " Ada "). vm_compute. repeat split; discriminate.
  - exists (lit "ada@example.org"). vm_compute. repeat split; discriminate.
  - exists (lit "2024-01-01T10:00:00"). vm_compute.
    repeat split; discriminate.
  - exists (lit "2024-01-01T11:00:00"). vm_compute.
    repeat split; discriminate.
  - vm_compute. reflexivity.
  - reflexivity.
  - reflexivity.
  - vm_compute. reflexivity.
Defined.


(** ** [cancel_event] *)

(** Without an event id, or with a blank one, [cancel_event] answers 400
    and sends nothing to the calendar. *)
Theorem cancel_event_missing_id w m :
  missing m "event_id" ->
  run w [] (cancel_event (Value (VDict m)))
  = (Value (Bad400 (lit "event_id required")), []).
Proof.
  intros Hid. unfold cancel_event. rewrite run_try_except. simpl.
  rewrite (read_field_missing _ _ Hid). reflexivity.
Qed.

Lemma cancel_event_missing_id_witness :
  run (fun _ _ => Value VNone) []
    (cancel_event (Value (VDict (dict_items [("event_id", str "  ")]))))
  = (Value (Bad400 (lit "event_id required")), []).
Proof.
  apply cancel_event_missing_id.
  right. exists (lit "  "). split; [vm_compute; reflexivity|].
  repeat constructor.
Defined.

(** With an event id, [cancel_event] asks for the service and then sends
    one delete, for that id without the white space around it, in the
    primary calendar and with notifications to all.  It answers 200 when
    the delete is acknowledged, whatever the acknowledgement holds, and 500
    with the exception otherwise. *)
Theorem cancel_event_deletes_once w m id svc :
  given m "event_id" id ->
  w [] get_calendar_service = Value svc ->
  let delete := events_delete (lit "primary") id (lit "all") in
  run w [] (cancel_event (Value (VDict m)))
  = (match w [get_calendar_service] delete with
     | Value _ =>
         Value (Ok200 (dict [("success", VBool true);
                             ("message", str "Event cancelled successfully")]))
     | Raises e => Value (Err500 e)
     end,
     [get_calendar_service; delete]).
Proof.
  intros Hid Hsvc delete. unfold cancel_event. rewrite run_try_except. simpl.
  rewrite (read_field_given _ _ _ Hid). destruct Hid as (_ & _ & _ & Hid).
  simpl. case_decide; [congruence|]. simpl. rewrite Hsvc. simpl.
  fold delete. now destruct (w [get_calendar_service] delete).
Qed.


Lemma cancel_event_deletes_once_witness :
  run example_service []
    (cancel_event (Value (VDict (dict_items [("event_id", str " evt1 ")]))))
  = (match
       example_service [get_calendar_service]
         (events_delete (lit "primary") (lit "evt1") (lit "all"))
     with
     | Value _ =>
         Value (Ok200 (dict [("success", VBool true);
                             ("message", str "Event cancelled successfully")]))
     | Raises e => Value (Err500 e)
     end,
     [get_calendar_service;
      events_delete (lit "primary") (lit "evt1") (lit "all")]).
Proof.
  apply (cancel_event_deletes_once example_service
           (dict_items [("event_id", str " evt1 ")]) (lit "evt1") VNone).
  - exists (lit " evt1 "). vm_compute. repeat split; discriminate.
  - reflexivity.
Defined.


(** Whatever the request and the answers of the service, [cancel_event]
    answers, and sends at most [get_calendar_service] and one delete; it
    never sends a delete with an empty id. *)
Theorem cancel_event_requests w request_json :
  exists resp sent,
    run w [] (cancel_event request_json) = (Value resp, sent) /\
    (sent = [] \/ sent = [get_calendar_service] \/
     exists id, id <> [] /\
       sent = [get_calendar_service;
               events_delete (lit "primary") id (lit "all")]) /\
    (forall msg, resp = Bad400 msg -> sent = []) /\
    (forall b, resp = Ok200 b -> length sent = 2%nat).
Proof.
  unfold cancel_event. rewrite run_try_except.
  destruct request_json as [data|e]; simpl;
    [|answered].
  destruct (read_field data "event_id") as [id|?]; simpl;
    [|answered].
  case_decide;
    [answered|].
  simpl.
  destruct (w [] get_calendar_service) as [svc|?]; simpl;
    [|answered].
  destruct (w [get_calendar_service] _) as [ack|?]; simpl;
    eexists _, _; (split; [reflexivity|]); (split; [eauto|]);
    split; intros; try discriminate; reflexivity.
Qed.

(** ** [reschedule_event] *)

Lemma update_times_dict m ms me new_start new_end :
  m !! lit "start" = Some (VDict ms) -> m !! lit "end" = Some (VDict me) ->
  update_times (VDict m) new_start new_end
  = Value (VDict
      (<[lit "end" := VDict (<[lit "dateTime" := VStr new_end]> me)]>
         (<[lit "start" := VDict (<[lit "dateTime" := VStr new_start]> ms)]>
            m))).
Proof.
  intros Hs He. unfold update_times. simpl. rewrite Hs. simpl.
  rewrite lookup_insert_ne by (vm_compute; discriminate).
  rewrite He. reflexivity.
Qed.

(** Rescheduling changes the two times and nothing else: in the event
    sent back, ['start']['dateTime'] and ['end']['dateTime'] are the new
    times, every other entry of the event is the one fetched, and so is
    every other entry of its ['start'] and ['end']. *)
Theorem update_times_changes_times_only m ms me new_start new_end :
  m !! lit "start" = Some (VDict ms) -> m !! lit "end" = Some (VDict me) ->
  exists m' ms' me',
    update_times (VDict m) new_start new_end = Value (VDict m') /\
    m' !! lit "start" = Some (VDict ms') /\
    m' !! lit "end" = Some (VDict me') /\
    ms' !! lit "dateTime" = Some (VStr new_start) /\
    me' !! lit "dateTime" = Some (VStr new_end) /\
    (forall k, k <> lit "start" -> k <> lit "end" -> m' !! k = m !! k) /\
    (forall k, k <> lit "dateTime" -> ms' !! k = ms !! k) /\
    (forall k, k <> lit "dateTime" -> me' !! k = me !! k).
Proof.
  intros Hs He. eexists _, _, _.
  split; [exact (update_times_dict _ _ _ _ _ Hs He)|].
  split; [|split; [apply lookup_insert_eq|]].
  { rewrite lookup_insert_ne by (vm_compute; discriminate).
    apply lookup_insert_eq. }
  split; [apply lookup_insert_eq|]. split; [apply lookup_insert_eq|].
  split; [|split]; intros k; intros;
    now rewrite ?lookup_insert_ne by congruence.
Qed.


Lemma update_times_changes_times_only_witness :
  exists m' ms' me',
    update_times
      (VDict (dict_items
         [("summary", str "Call");
          ("start", dict [("dateTime", str "10:00"); ("timeZone", str "UTC")]);
          ("end", dict [("dateTime", str "11:00"); ("timeZone", str "UTC")])]))
      (lit "12:00") (lit "13:00")
    = Value (VDict m') /\
    m' !! lit "start" = Some (VDict ms') /\
    m' !! lit "end" = Some (VDict me') /\
    ms' !! lit "dateTime" = Some (VStr (lit "12:00")) /\
    me' !! lit "dateTime" = Some (VStr (lit "13:00")) /\
    (forall k, k <> lit "start" -> k <> lit "end" ->
       m' !! k
       = dict_items
           [("summary", str "Call");
            ("start", dict [("dateTime", str "10:00");
                            ("timeZone", str "UTC")]);
            ("end", dict [("dateTime", str "11:00");
                          ("timeZone", str "UTC")])] !! k) /\
    (forall k, k <> lit "dateTime" ->
       ms' !! k
       = dict_items [("dateTime", str "10:00"); ("timeZone", str "UTC")] !! k)
    /\
    (forall k, k <> lit "dateTime" ->
       me' !! k
       = dict_items [("dateTime", str "11:00"); ("timeZone", str "UTC")] !! k).
Proof.
  apply (update_times_changes_times_only
           (dict_items
              [("summary", str "Call");
               ("start", dict [("dateTime", str "10:00");
                               ("timeZone", str "UTC")]);
               ("end", dict [("dateTime", str "11:00");
                             ("timeZone", str "UTC")])])
           (dict_items [("dateTime", str "10:00"); ("timeZone", str "UTC")])
           (dict_items [("dateTime", str "11:00"); ("timeZone", str "UTC")])).
  - vm_compute. reflexivity.
  - vm_compute. reflexivity.
Defined.


(** An event without a ['start'] or an ['end'] that is an object cannot be
    rescheduled: the update of the times raises. *)
Theorem update_times_needs_both_times event new_start new_end :
  (forall m ms me, event = VDict m ->
     m !! lit "start" = Some (VDict ms) -> m !! lit "end" = Some (VDict me) ->
     False) ->
  exists e, update_times event new_start new_end = Raises e.
Proof.
  intros Hbad. unfold update_times, getitem, setitem.
  destruct event as [| | | | |l|m]; simpl; eauto.
  destruct (m !! lit "start") as [start|] eqn:Hs; simpl; eauto.
  destruct start as [| | | | |l|ms]; simpl; eauto.
  rewrite lookup_insert_ne by (vm_compute; discriminate).
  destruct (m !! lit "end") as [end_|] eqn:He; simpl; eauto.
  destruct end_ as [| | | | |l|me]; simpl; eauto.
  destruct (Hbad m ms me); auto.
Qed.


Lemma update_times_needs_both_times_witness :
  exists e,
    update_times (dict [("summary", str "Birthday");
                        ("start", dict [("date", str "2024-01-01")])])
      (lit "12:00") (lit "13:00")
    = Raises e.
Proof.
  apply update_times_needs_both_times.
  intros m ms me [= <-] _ Hend. vm_compute in Hend. discriminate.
Defined.


(** When the event id or one of the two new times is absent or blank,
    [reschedule_event] answers 400 and sends nothing to the calendar. *)
Theorem reschedule_event_missing_field w m :
  textual m "event_id" -> textual m "new_start_time" ->
  textual m "new_end_time" ->
  missing m "event_id" \/ missing m "new_start_time" \/
  missing m "new_end_time" ->
  run w [] (reschedule_event (Value (VDict m)))
  = (Value (Bad400 (lit "event_id, new_start_time, new_end_time required")),
     []).
Proof.
  intros Hi Hs He Hmiss. unfold reschedule_event. rewrite run_try_except.
  destruct (read_field_cases m _ Hi) as [[Mi Ri]|(i & _ & Mi & Ri & Ni)];
  destruct (read_field_cases m _ Hs) as [[Ms Rs]|(s & _ & Ms & Rs & Ns)];
  destruct (read_field_cases m _ He) as [[Me Re]|(e & _ & Me & Re & Ne)];
  simpl; rewrite Ri, Rs, Re; simpl;
  first [tauto | repeat case_decide; first [reflexivity|congruence|tauto]].
Qed.

Lemma reschedule_event_missing_field_witness :
  run (fun _ _ => Value VNone) []
    (reschedule_event
       (Value (VDict (dict_items [("event_id", str "abc");
                                  ("new_start_time", str " ")]))))
  = (Value (Bad400 (lit "event_id, new_start_time, new_end_time required")),
     []).
Proof.
  apply reschedule_event_missing_field.
  - right. exists (lit "abc"). vm_compute. reflexivity.
  - right. exists (lit " "). vm_compute. reflexivity.
  - left. vm_compute. reflexivity.
  - right. right. left. vm_compute. reflexivity.
Defined.

(** With the three fields given and the service at hand, [reschedule_event]
    fetches the event and sends it back with the two times changed.  When
    the event fetched has no ['start'] or ['end'] to change, it answers 500
    and sends no update. *)
Theorem reschedule_event_sends_changed_event w m id new_start new_end svc
    event :
  given m "event_id" id -> given m "new_start_time" new_start ->
  given m "new_end_time" new_end ->
  w [] get_calendar_service = Value svc ->
  let get := events_get (lit "primary") id in
  w [get_calendar_service] get = Value event ->
  (forall e, update_times event new_start new_end = Raises e ->
     run w [] (reschedule_event (Value (VDict m)))
     = (Value (Err500 e), [get_calendar_service; get])) /\
  (forall body, update_times event new_start new_end = Value body ->
     let update := events_update (lit "primary") id body (lit "all") in
     snd (run w [] (reschedule_event (Value (VDict m))))
     = [get_calendar_service; get; update] /\
     (forall e, w [get_calendar_service; get] update = Raises e ->
        fst (run w [] (reschedule_event (Value (VDict m))))
        = Value (Err500 e)) /\
     (forall mu title mus t1 mue t2,
        w [get_calendar_service; get] update = Value (VDict mu) ->
        mu !! lit "summary" = Some title ->
        mu !! lit "start" = Some (VDict mus) ->
        mus !! lit "dateTime" = Some t1 ->
        mu !! lit "end" = Some (VDict mue) ->
        mue !! lit "dateTime" = Some t2 ->
        fst (run w [] (reschedule_event (Value (VDict m))))
        = Value (Ok200 (dict
            [("success", VBool true);
             ("message", str "Event rescheduled successfully");
             ("title", title); ("new_start", t1); ("new_end", t2)])))).
Proof.
  intros Hi Hs He Hsvc get Hget.
  assert (Hrun : run w [] (reschedule_event (Value (VDict m)))
    = match update_times event new_start new_end with
      | Raises e => (Value (Err500 e), [get_calendar_service; get])
      | Value body =>
          let update := events_update (lit "primary") id body (lit "all") in
          (match w [get_calendar_service; get] update with
           | Raises e => Value (Err500 e)
           | Value updated =>
               match
                 title ← getitem updated "summary";
                 start ← getitem updated "start" ≫=
                           (fun v => getitem v "dateTime");
                 end_ ← getitem updated "end" ≫=
                          (fun v => getitem v "dateTime");
                 mret (Ok200 (dict
                   [("success", VBool true);
                    ("message", str "Event rescheduled successfully");
                    ("title", title); ("new_start", start);
                    ("new_end", end_)]))
               with
               | Value r => Value r
               | Raises e => Value (Err500 e)
               end
           end, [get_calendar_service; get; update])
      end).
  { unfold reschedule_event. rewrite run_try_except. simpl.
    rewrite (read_field_given _ _ _ Hi), (read_field_given _ _ _ Hs),
      (read_field_given _ _ _ He).
    destruct Hi as (_ & _ & _ & Hi), Hs as (_ & _ & _ & Hs),
      He as (_ & _ & _ & He).
    simpl. case_decide; [tauto|]. simpl. rewrite Hsvc. simpl. fold get.
    rewrite Hget. simpl.
    destruct (update_times event new_start new_end) as [body|e]; simpl;
      [|reflexivity].
    destruct (w [get_calendar_service; get] _) as [updated|e]; simpl;
      [|reflexivity].
    destruct (getitem updated "summary"); simpl; [|reflexivity].
    destruct (getitem updated "start" ≫= _); simpl; [|reflexivity].
    destruct (getitem updated "end" ≫= _); simpl; reflexivity. }
  split.
  - intros e Hup. rewrite Hrun, Hup. reflexivity.
  - intros body Hup update. rewrite Hrun, Hup. cbv zeta. fold update.
    split; [reflexivity|]. split.
    + intros e ->. reflexivity.
    + intros mu title mus t1 mue t2 -> Ht Hms Ht1 Hme Ht2. simpl.
      rewrite Ht. simpl. rewrite Hms. simpl. rewrite Ht1. simpl.
      rewrite Hme. simpl. rewrite Ht2. reflexivity.
Qed.


Lemma reschedule_event_sends_changed_event_witness :
  snd (run example_service []
         (reschedule_event
            (Value (dict [("event_id", str "evt1");
                          ("new_start_time", str "2024-01-02T10:00:00");
                          ("new_end_time", str "2024-01-02T11:00:00")]))))
  = [get_calendar_service; events_get (lit "primary") (lit "evt1");
     events_update (lit "primary") (lit "evt1")
       (dict [("summary", str "Call");
              ("start", dict [("dateTime", str "2024-01-02T10:00:00");
                              ("timeZone", str "UTC")]);
              ("end", dict [("dateTime", str "2024-01-02T11:00:00");
                            ("timeZone", str "UTC")])])
       (lit "all")].
Proof.
  destruct (reschedule_event_sends_changed_event example_service
              (dict_items [("event_id", str "evt1");
                           ("new_start_time", str "2024-01-02T10:00:00");
                           ("new_end_time", str "2024-01-02T11:00:00")])
              (lit "evt1") (lit "2024-01-02T10:00:00")
              (lit "2024-01-02T11:00:00") VNone
              (dict [("summary", str "Call");
                     ("start", dict [("dateTime", str "2024-01-01T10:00:00");
                                     ("timeZone", str "UTC")]);
                     ("end", dict [("dateTime", str "2024-01-01T11:00:00");
                                   ("timeZone", str "UTC")])]))
    as [_ Hsent].
  - exists (lit "evt1"). vm_compute. repeat split; discriminate.
  - exists (lit "2024-01-02T10:00:00"). vm_compute.
    repeat split; discriminate.
  - exists (lit "2024-01-02T11:00:00"). vm_compute.
    repeat split; discriminate.
  - reflexivity.
  - reflexivity.
  - refine (proj1 (Hsent _ _)). vm_compute. reflexivity.
Defined.


(** Whatever the request and the answers of the service,
    [reschedule_event] answers, and what it sends is a beginning of:
    [get_calendar_service], one fetch, one update of the event fetched.
    A 400 answer means that nothing was sent, a 200 answer that the
    update was sent. *)
Theorem reschedule_event_requests w request_json :
  exists resp sent,
    run w [] (reschedule_event request_json) = (Value resp, sent) /\
    (sent = [] \/ sent = [get_calendar_service] \/
     exists id, id <> [] /\
       (sent = [get_calendar_service; events_get (lit "primary") id] \/
        exists body,
          sent = [get_calendar_service; events_get (lit "primary") id;
                  events_update (lit "primary") id body (lit "all")])) /\
    (forall msg, resp = Bad400 msg -> sent = []) /\
    (forall b, resp = Ok200 b -> length sent = 3%nat).
Proof.
  unfold reschedule_event. rewrite run_try_except.
  destruct request_json as [data|e]; simpl;
    [|answered].
  destruct (read_field data "event_id") as [id|?]; simpl;
    [|answered].
  destruct (read_field data "new_start_time") as [ns|?]; simpl;
    [|answered].
  destruct (read_field data "new_end_time") as [ne|?]; simpl;
    [|answered].
  case_decide as Hblank;
    [answered|].
  assert (id <> []) by tauto. simpl.
  destruct (w [] get_calendar_service) as [svc|?]; simpl;
    [|answered].
  destruct (w [get_calendar_service] _) as [event|?]; simpl;
    [|answered].
  destruct (update_times event ns ne) as [body|?]; simpl;
    [|answered].
  destruct (w [get_calendar_service; _] _) as [updated|?]; simpl;
    [|answered].
  destruct (getitem updated "summary"); simpl;
    [|answered].
  destruct (getitem updated "start" ≫= _); simpl;
    [|answered].
  destruct (getitem updated "end" ≫= _); simpl;
    eexists _, _; (split; [reflexivity|]); (split; [eauto 8|]);
    split; intros; try discriminate; reflexivity.
Qed.

(** ** [list_events] *)

Lemma format_events_Value events acc formatted :
  format_events events acc = Value formatted <->
  exists fs, formatted = acc ++ fs /\
    Forall2 (fun evt f => format_event evt = Value f) events fs.
Proof.
  revert acc. induction events as [|evt rest IH]; intros acc; simpl.
  - split.
    + intros [= <-]. exists []. split; [now rewrite app_nil_r|constructor].
    + intros (fs & -> & Hfs). inversion Hfs. now rewrite app_nil_r.
  - destruct (format_event evt) as [f|e] eqn:Hevt; simpl.
    + rewrite IH. split.
      * intros (fs & -> & Hfs). exists (f :: fs).
        split; [now rewrite <- app_assoc|]. now constructor.
      * intros (fs & -> & Hfs). inversion Hfs as [|? f' ? fs' Hf Hrest];
          subst. exists fs'. assert (f' = f) as -> by congruence.
        split; [now rewrite <- app_assoc|assumption].
    + split; [discriminate|].
      intros (fs & _ & Hfs). inversion Hfs; congruence.
Qed.

Lemma format_events_Raises events acc e :
  format_events events acc = Raises e <->
  exists good evt rest,
    events = good ++ evt :: rest /\
    Forall (fun g => exists f, format_event g = Value f) good /\
    format_event evt = Raises e.
Proof.
  revert acc. induction events as [|evt rest IH]; intros acc; simpl.
  - split; [discriminate|]. intros (good & ? & ? & H & _).
    now destruct good.
  - destruct (format_event evt) as [f|e'] eqn:Hevt; simpl.
    + rewrite IH. split.
      * intros (good & bad & rest' & -> & Hgood & Hbad).
        exists (evt :: good), bad, rest'. split; [reflexivity|].
        split; [constructor; eauto|assumption].
      * intros (good & bad & rest' & Heq & Hgood & Hbad).
        destruct good as [|g good]; simplify_eq/=; [congruence|].
        inversion Hgood; subst. eauto 6.
    + split.
      * intros [= <-]. exists [], evt, rest. auto.
      * intros (good & bad & rest' & Heq & Hgood & Hbad).
        destruct good as [|g good]; simplify_eq/=; [congruence|].
        inversion Hgood as [|? ? [f Hf]]; subst. congruence.
Qed.

(** An event can be listed exactly when it is an object with an ['id'] and
    with a ['start'] and an ['end'] that are objects.  Its title is its
    summary, or "Untitled"; each of its two times is the ['dateTime'], or
    else the ['date'], or else [None]. *)
Theorem format_event_listable evt :
  (exists f, format_event evt = Value f) <->
  exists m id ms me,
    evt = VDict m /\ m !! lit "id" = Some id /\
    m !! lit "start" = Some (VDict ms) /\ m !! lit "end" = Some (VDict me).
Proof.
  unfold format_event, getitem, dict_get. split.
  - intros [f Hf]. destruct evt as [| | | | |l|m]; simpl in Hf;
      try discriminate.
    destruct (m !! lit "id") as [id|] eqn:Hid; simpl in Hf; [|discriminate].
    destruct (m !! lit "start") as [[| | | | |l|ms]|] eqn:Hs; simpl in Hf;
      try discriminate.
    destruct (m !! lit "end") as [[| | | | |l|me]|] eqn:He; simpl in Hf;
      try discriminate.
    exists m, id, ms, me. auto.
  - intros (m & id & ms & me & -> & Hid & Hs & He). simpl.
    rewrite Hid, Hs, He. simpl. eauto.
Qed.

Lemma format_event_fields m id ms me :
  m !! lit "id" = Some id ->
  m !! lit "start" = Some (VDict ms) -> m !! lit "end" = Some (VDict me) ->
  format_event (VDict m)
  = Value (dict
      [("id", id);
       ("title", default (str "Untitled") (m !! lit "summary"));
       ("description", default (str "") (m !! lit "description"));
       ("start", default (default VNone (ms !! lit "date"))
                   (ms !! lit "dateTime"));
       ("end", default (default VNone (me !! lit "date"))
                 (me !! lit "dateTime"));
       ("link", default (str "") (m !! lit "htmlLink"))]).
Proof.
  intros Hid Hs He. unfold format_event, getitem, dict_get. simpl.
  rewrite Hid, Hs, He. reflexivity.
Qed.

(** The listing is all or nothing.  When every event of ['items'] can be
    listed, the answer is 200, with as many entries as there are events,
    in the same order, each the listing of its event, and [count] is
    their number.  When some event cannot be listed, there is no answer of
    the listing at all: the exception of the first such event goes up. *)
Theorem list_events_all_or_nothing m events :
  default (VList []) (m !! lit "items") = VList events ->
  (forall formatted,
     Forall2 (fun evt f => format_event evt = Value f) events formatted ->
     list_events_answer (VDict m)
     = Ok200 (dict
         [("success", VBool true);
          ("count", VInt (Z.of_nat (length events)));
          ("events", VList formatted);
          ("message",
             VStr (if decide (formatted = []) then lit "No upcoming events"
                   else lit (pretty (length events))
                        ++ lit " upcoming events found"))])) /\
  (forall good evt rest e,
     events = good ++ evt :: rest ->
     Forall (fun g => exists f, format_event g = Value f) good ->
     format_event evt = Raises e ->
     list_events_answer (VDict m) = Err500 e).
Proof.
  intros Hitems. unfold list_events_answer, dict_get. simpl.
  rewrite Hitems. simpl. split.
  - intros formatted Hall.
    assert (Hlen : length formatted = length events)
      by (symmetry; exact (Forall2_length _ _ _ Hall)).
    assert (Hrun : format_events events [] = Value formatted)
      by (apply format_events_Value; eauto).
    rewrite Hrun. simpl. now rewrite Hlen.
  - intros good evt rest e Heq Hgood Hbad.
    assert (Hrun : format_events events [] = Raises e)
      by (apply format_events_Raises; eauto 6).
    now rewrite Hrun.
Qed.

Lemma list_events_all_or_nothing_witness :
  (forall formatted,
     Forall2 (fun evt f => format_event evt = Value f)
       [dict [("id", str "a"); ("start", dict []); ("end", dict [])];
        VNone] formatted ->
     list_events_answer
       (VDict (dict_items
          [("items",
            VList [dict [("id", str "a"); ("start", dict []);
                         ("end", dict [])];
                   VNone])]))
     = Ok200 (dict
         [("success", VBool true);
          ("count", VInt (Z.of_nat (length
             [dict [("id", str "a"); ("start", dict []); ("end", dict [])];
              VNone])));
          ("events", VList formatted);
          ("message",
             VStr (if decide (formatted = []) then lit "No upcoming events"
                   else lit (pretty (length
                          [dict [("id", str "a"); ("start", dict []);
                                 ("end", dict [])];
                           VNone]))
                        ++ lit " upcoming events found"))])) /\
  (forall good evt rest e,
     [dict [("id", str "a"); ("start", dict []); ("end", dict [])]; VNone]
     = good ++ evt :: rest ->
     Forall (fun g => exists f, format_event g = Value f) good ->
     format_event evt = Raises e ->
     list_events_answer
       (VDict (dict_items
          [("items",
            VList [dict [("id", str "a"); ("start", dict []);
                         ("end", dict [])];
                   VNone])]))
     = Err500 e).
Proof.
  apply (list_events_all_or_nothing
           (dict_items
              [("items",
                VList [dict [("id", str "a"); ("start", dict []);
                             ("end", dict [])];
                       VNone])])).
  vm_compute. reflexivity.
Defined.

(** The answer to one event that can be listed and one that cannot. *)
Example list_events_half_listable :
  list_events_answer
    (dict [("items",
            VList [dict [("id", str "a"); ("start", dict []);
                         ("end", dict [])];
                   VNone])])
  = Err500 TypeError.
Proof. vm_compute. reflexivity. Qed.

(** * The handler's call and the state between calls *)

(** ** The entries read as naive times *)

Lemma is_free_entries_naive current slot_end busy :
  is_free_entries current slot_end (naive_entry <$> busy)
  = Value (is_free current slot_end busy).
Proof.
  induction busy as [|b rest IH]; [reflexivity|].
  rewrite fmap_cons. simpl.
  destruct (current <? busy_end b); simpl; [|exact IH].
  destruct (slot_end >? busy_start b); simpl; [reflexivity|exact IH].
Qed.

Lemma entries_loop_naive d e busy fuel cur acc :
  entries_loop d e (naive_entry <$> busy) fuel cur acc
  = match while_loop d e busy fuel cur acc with
    | Some (Returned free_slots) => Some (Free free_slots)
    | Some (Raised ex) => Some (Failed (ByAddition ex))
    | None => None
    end.
Proof.
  revert cur acc. induction fuel as [|fuel IH]; intros cur acc;
    [reflexivity|].
  simpl. destruct (cur <? e); [|reflexivity].
  destruct (datetime_add cur d) as [slot_end|ex]; [|reflexivity].
  rewrite is_free_entries_naive.
  destruct (is_free cur slot_end busy); apply IH.
Qed.


Lemma check_availability_naive target_date busy :
  0 <= target_date <= datetime_max ->
  check_availability 10 target_date (naive_entry <$> busy)
  = Some (Free (filter (slot_is_free busy)
                  (candidates hour 9 (replace_hour target_date 9)))) /\
  forall fuel e,
    check_availability fuel target_date (naive_entry <$> busy)
    <> Some (Failed e).
Proof.
  intros Hd. pose proof (working_hours_in_range _ Hd) as Hin.
  assert (Hh : 0 < hour) by reflexivity.
  pose proof (yields_total _ busy _ Hh Hin) as Hrun.
  unfold window_candidates in Hrun. rewrite working_hours_count in Hrun.
  change (start_time (working_hours target_date))
    with (replace_hour target_date 9) in Hrun.
  unfold check_availability. split.
  - rewrite entries_loop_naive.
    destruct Hin as [Hlo Hhi].
    destruct (while_loop_total hour (end_time (working_hours target_date))
                busy 10 (start_time (working_hours target_date)) []
                Hh Hlo Hhi) as [r Hr].
    { fold (window_count (working_hours target_date) hour).
      rewrite working_hours_count. lia. }
    rewrite Hr. do 2 f_equal.
    assert (Hy : yields (working_hours target_date) busy hour (Returned r))
      by (eexists; exact Hr).
    pose proof (yields_deterministic _ _ _ _ _ Hy Hrun). congruence.
  - intros fuel e. rewrite entries_loop_naive.
    destruct (while_loop _ _ _ fuel _ _) as [[r|ex]|] eqn:Hr; try discriminate.
    assert (Hy : yields (working_hours target_date) busy hour (Raised ex))
      by (eexists; exact Hr).
    pose proof (yields_deterministic _ _ _ _ _ Hy Hrun). discriminate.
Qed.

(** ** The claims on the handler's window *)


(** C3. With nothing busy, the handler's window gives a result whose length
    is the window length divided by the slot duration, rounded down (nine),
    and whose slots are contiguous, do not overlap and are in chronological
    order. *)
Theorem working_hours_empty_busy target_date :
  let window := working_hours target_date in
  (forall r, yields window [] hour (Returned r) ->
     Z.of_nat (length r) = (end_time window - start_time window) / hour /\
     length r = 9%nat /\
     contiguous r /\ non_overlapping r /\ chronological r) /\
  (0 <= target_date <= datetime_max ->
   exists r, yields window [] hour (Returned r)).
Proof.
  intros window. assert (Hh : 0 < hour) by reflexivity.
  pose proof (working_hours_length target_date) as Hlen. fold window in Hlen.
  destruct (empty_busy_result window hour Hh ltac:(lia)) as [Hres Hex].
  split.
  - intros r Hrun. destruct (Hres r Hrun) as (_ & Hfloor & Hc & Hn & Ho).
    assert (Hdiv : (hour | end_time window - start_time window))
      by (exists 9; lia).
    specialize (Hfloor Hdiv). split; [exact Hfloor|].
    split; [|auto].
    rewrite Hlen in Hfloor.
    replace (start_time window + 9 * hour - start_time window)
      with (9 * hour) in Hfloor by lia.
    rewrite Z.div_mul in Hfloor by lia. lia.
  - intros Hd. apply Hex. now apply working_hours_in_range.
Qed.

(** C6. Every slot in the result of the handler's call is exactly one slot
    duration long, starts at or after the start of the window and ends at
    or before its end. *)
Theorem working_hours_free_slot_invariant target_date busy :
  let window := working_hours target_date in
  (forall r, yields window busy hour (Returned r) ->
     forall s, s ∈ r ->
       fs_end s - fs_start s = hour /\
       fs_start s >= start_time window /\
       fs_end s <= end_time window) /\
  (0 <= target_date <= datetime_max ->
   exists r, yields window busy hour (Returned r)).
Proof.
  intros window. assert (Hh : 0 < hour) by reflexivity.
  pose proof (working_hours_length target_date) as Hlen. fold window in Hlen.
  destruct (free_slot_invariant window busy hour Hh) as [Hinv Hex]. split.
  - intros r Hrun s Hs. destruct (Hinv r Hrun s Hs) as (? & ? & _ & Hend).
    split; [assumption|]. split; [lia|]. apply Hend. exists 9. lia.
  - intros Hd. apply Hex. now apply working_hours_in_range.
Qed.

(** C8. On the handler's window, one more busy interval that lies outside
    the window, ending at or before its start or starting at or after its
    end, leaves the result unchanged, wherever it stands in the list. *)
Theorem working_hours_busy_outside target_date busy1 b busy2 :
  let window := working_hours target_date in
  busy_end b <= start_time window \/ busy_start b >= end_time window ->
  (forall r, yields window (busy1 ++ b :: busy2) hour (Returned r) <->
             yields window (busy1 ++ busy2) hour (Returned r)) /\
  (0 <= target_date <= datetime_max ->
   exists r, yields window (busy1 ++ b :: busy2) hour (Returned r)).
Proof.
  intros window Hout. assert (Hh : 0 < hour) by reflexivity.
  pose proof (working_hours_length target_date) as Hlen. fold window in Hlen.
  destruct (busy_outside_window_no_effect window busy1 b busy2 hour Hh)
    as [Hsame Hex].
  { destruct Hout as [?|?]; [now left|right]. split; [lia|]. exists 9. lia. }
  split; [exact Hsame|].
  intros Hd. apply Hex. now apply working_hours_in_range.
Qed.

Lemma working_hours_busy_outside_witness :
  (forall r,
     yields (working_hours (at_ 13 20))
       ([mkBusy (at_ 9 0) (at_ 10 30)] ++ mkBusy (at_ 18 0) (at_ 18 30) :: [])
       hour (Returned r) <->
     yields (working_hours (at_ 13 20))
       ([mkBusy (at_ 9 0) (at_ 10 30)] ++ []) hour (Returned r)) /\
  (0 <= at_ 13 20 <= datetime_max ->
   exists r,
     yields (working_hours (at_ 13 20))
       ([mkBusy (at_ 9 0) (at_ 10 30)] ++ mkBusy (at_ 18 0) (at_ 18 30) :: [])
       hour (Returned r)).
Proof.
  apply (working_hours_busy_outside (at_ 13 20)
           [mkBusy (at_ 9 0) (at_ 10 30)] (mkBusy (at_ 18 0) (at_ 18 30)) []).
  right. vm_compute. discriminate.
Defined.



(** ** Two invocations, one after the other *)

(** On a store where [busy_slots] and [free_slots] are two lists, the loop
    changes the list at [free_slots] and nothing else: it ends like the
    loop on values, with [free_slots] holding its result. *)
Lemma store_loop_while_loop d e busy_slots free_slots busy fuel :
  busy_slots <> free_slots ->
  forall cur items (h : store),
    h !! busy_slots = Some (BusyList busy) ->
    h !! free_slots = Some (SlotList items) ->
    store_loop d e busy_slots free_slots fuel cur h
    = match while_loop d e busy fuel cur items with
      | Some (Returned l) => Some (Returned (<[free_slots := SlotList l]> h))
      | Some (Raised ex) => Some (Raised ex)
      | None => None
      end.
Proof.
  intros Hne.
  induction fuel as [|fuel IH]; intros cur items h Hbusy Hfree;
    [reflexivity|].
  cbn [store_loop while_loop]. destruct (cur <? e).
  - destruct (datetime_add cur d) as [slot_end|ex]; [|reflexivity].
    rewrite Hbusy. destruct (is_free cur slot_end busy).
    + rewrite Hfree.
      rewrite (IH slot_end (items ++ [mkSlot cur slot_end])).
      * destruct (while_loop _ _ _ _ _ _) as [[l|ex]|]; try reflexivity.
        now rewrite insert_insert_eq.
      * now rewrite lookup_insert_ne by congruence.
      * apply lookup_insert_eq.
    + now apply IH.
  - now rewrite insert_id.
Qed.

Lemma invoke_compute_free_slots fuel window busy_slots busy d (h : store) :
  h !! busy_slots = Some (BusyList busy) ->
  invoke fuel window busy_slots d h
  = match compute_free_slots fuel window busy d with
    | Some (Returned l) =>
        Some (Returned (<[fresh (dom h) := SlotList l]> h, fresh (dom h)))
    | Some (Raised ex) => Some (Raised ex)
    | None => None
    end.
Proof.
  intros Hbusy. unfold invoke, compute_free_slots.
  assert (Hfresh : busy_slots <> fresh (dom h)).
  { intros Heq. apply (is_fresh (dom h)). rewrite <- Heq.
    apply elem_of_dom. eauto. }
  rewrite (store_loop_while_loop _ _ _ _ busy _ Hfresh _ []).
  - destruct (while_loop _ _ _ _ _ _) as [[l|ex]|]; try reflexivity.
    now rewrite insert_insert_eq.
  - now rewrite lookup_insert_ne by congruence.
  - apply lookup_insert_eq.
Qed.

(** C9. Two invocations with the same window, busy intervals and slot
    duration, the second in the store the first has left, yield the same
    sequence of slots.  The first invocation leaves the list of busy
    intervals as it was; the second makes a list of its own and leaves the
    result of the first untouched. *)
Theorem invocations_yield_the_same fuel window busy_slots busy d
    (h h1 : store) r1 :
  h !! busy_slots = Some (BusyList busy) ->
  invoke fuel window busy_slots d h = Some (Returned (h1, r1)) ->
  exists free_slots,
    h1 !! r1 = Some (SlotList free_slots) /\
    h1 !! busy_slots = Some (BusyList busy) /\
    yields window busy d (Returned free_slots) /\
    forall busy_slots2,
      h1 !! busy_slots2 = Some (BusyList busy) ->
      exists h2 r2,
        invoke fuel window busy_slots2 d h1 = Some (Returned (h2, r2)) /\
        r2 <> r1 /\
        h2 !! r2 = Some (SlotList free_slots) /\
        h2 !! r1 = Some (SlotList free_slots).
Proof.
  intros Hbusy Hrun.
  rewrite (invoke_compute_free_slots _ _ _ busy) in Hrun by exact Hbusy.
  destruct (compute_free_slots fuel window busy d) as [[l|ex]|] eqn:Hpure;
    try discriminate.
  injection Hrun as <- <-.
  assert (Hfresh : busy_slots <> fresh (dom h)).
  { intros Heq. apply (is_fresh (dom h)). rewrite <- Heq.
    apply elem_of_dom. eauto. }
  exists l. split; [apply lookup_insert_eq|].
  split; [now rewrite lookup_insert_ne by congruence|].
  split; [eexists; exact Hpure|].
  intros busy_slots2 Hbusy2.
  rewrite (invoke_compute_free_slots _ _ _ busy) by exact Hbusy2.
  rewrite Hpure. eexists _, _. split; [reflexivity|].
  set (h1 := <[fresh (dom h) := SlotList l]> h).
  assert (Hnew : fresh (dom h1) <> fresh (dom h)).
  { intros Heq. apply (is_fresh (dom h1)). rewrite Heq.
    apply elem_of_dom. unfold h1. rewrite lookup_insert_eq. eauto. }
  split; [exact Hnew|]. split; [apply lookup_insert_eq|].
  rewrite lookup_insert_ne by exact Hnew. apply lookup_insert_eq.
Qed.

Lemma invocations_yield_the_same_witness :
  let h : store := {[ 0%nat := BusyList [mkBusy (at_ 9 0) (at_ 10 30)] ]} in
  let free_slots := candidates hour 7 (at_ 11 0) in
  let h1 : store := <[1%nat := SlotList free_slots]> h in
  exists free_slots',
    h1 !! 1%nat = Some (SlotList free_slots') /\
    h1 !! 0%nat = Some (BusyList [mkBusy (at_ 9 0) (at_ 10 30)]) /\
    yields (mkWindow (at_ 9 0) (at_ 18 0)) [mkBusy (at_ 9 0) (at_ 10 30)]
      hour (Returned free_slots') /\
    forall busy_slots2,
      h1 !! busy_slots2 = Some (BusyList [mkBusy (at_ 9 0) (at_ 10 30)]) ->
      exists h2 r2,
        invoke 10 (mkWindow (at_ 9 0) (at_ 18 0)) busy_slots2 hour h1
        = Some (Returned (h2, r2)) /\
        r2 <> 1%nat /\
        h2 !! r2 = Some (SlotList free_slots') /\
        h2 !! 1%nat = Some (SlotList free_slots').
Proof.
  cbv zeta.
  apply (invocations_yield_the_same 10 (mkWindow (at_ 9 0) (at_ 18 0))
           0%nat [mkBusy (at_ 9 0) (at_ 10 30)] hour
           {[ 0%nat := BusyList [mkBusy (at_ 9 0) (at_ 10 30)] ]}).
  - reflexivity.
  - vm_compute. reflexivity.
Defined.

(** ** Further properties of the handler's call *)

Lemma filter_overlaps_none busy (l : list FreeSlot) :
  filter (slot_is_free busy) l = filter (overlaps_none busy) l.
Proof.
  apply filter_elem_iff. intros s _.
  unfold overlaps_none. now rewrite slot_is_free_spec, Forall_forall.
Qed.

(** The loop ends after one test of its condition per candidate and a
    last one that fails, and returns, in the order of the walk, the
    candidates that overlap no busy interval. *)
Theorem compute_free_slots_closed_form window busy d :
  0 < d -> in_range window d ->
  compute_free_slots (S (window_count window d)) window busy d
  = Some (Returned
      (filter (overlaps_none busy) (window_candidates window d))).
Proof.
  intros Hd [Hlo Hhi].
  destruct (while_loop_total d (end_time window) busy
              (S (window_count window d)) (start_time window) [] Hd Hlo Hhi)
    as [r Hr]; [unfold window_count; lia|].
  unfold compute_free_slots. rewrite Hr. do 2 f_equal.
  rewrite <- filter_overlaps_none.
  apply yields_closed_form; [exact Hd|]. eexists. exact Hr.
Qed.

Lemma compute_free_slots_closed_form_witness :
  compute_free_slots
    (S (window_count (mkWindow (at_ 9 0) (at_ 10 30)) hour))
    (mkWindow (at_ 9 0) (at_ 10 30)) [mkBusy (at_ 9 30) (at_ 9 45)] hour
  = Some (Returned
      (filter (overlaps_none [mkBusy (at_ 9 30) (at_ 9 45)])
         (window_candidates (mkWindow (at_ 9 0) (at_ 10 30)) hour))).
Proof.
  apply (compute_free_slots_closed_form (mkWindow (at_ 9 0) (at_ 10 30))
           [mkBusy (at_ 9 30) (at_ 9 45)] hour).
  - reflexivity.
  - split; vm_compute; discriminate.
Defined.

(** A slot is in the result exactly when it is a candidate of the walk
    that overlaps no busy interval: no free candidate is left out.  A
    result exists whenever the candidates stay within the range of
    [datetime]. *)
Theorem free_slots_sound_and_complete window busy d :
  0 < d ->
  (forall r, yields window busy d (Returned r) ->
     forall s,
       s ∈ r <->
       (exists k : nat,
          fs_start s = start_time window + Z.of_nat k * d /\
          fs_start s < end_time window /\
          fs_end s = fs_start s + d) /\
       (forall b, b ∈ busy -> ~ overlaps s b)) /\
  (in_range window d -> exists r, yields window busy d (Returned r)).
Proof.
  intros Hd. split; [|intros Hin; eexists; now apply yields_total].
  intros r Hrun s. rewrite (yields_closed_form _ _ _ _ Hd Hrun).
  rewrite list_elem_of_filter, slot_is_free_spec. split.
  - intros [Hfree Hs]. split; [|exact Hfree].
    destruct (window_candidate_bounds _ _ _ Hd Hs) as ([_ Hlt] & Hlen & _).
    apply elem_of_candidates in Hs as (k & _ & ->). exists k.
    simpl in *. lia.
  - intros [(k & Hk & Hlt & Hlen) Hfree]. split; [exact Hfree|].
    assert (Hwin : start_time window < end_time window) by nia.
    pose proof (candidate_count_bounds d _ _ Hd Hwin) as Hb. cbv zeta in Hb.
    fold (window_count window d) in Hb.
    apply list_elem_of_lookup. exists k. unfold window_candidates.
    rewrite candidates_lookup by nia.
    destruct s as [a e]. simpl in *. f_equal. f_equal; lia.
Qed.

Lemma free_slots_sound_and_complete_witness :
  (forall r,
     yields (mkWindow (at_ 9 0) (at_ 10 30)) [mkBusy (at_ 9 30) (at_ 9 45)]
       hour (Returned r) ->
     forall s,
       s ∈ r <->
       (exists k : nat,
          fs_start s = at_ 9 0 + Z.of_nat k * hour /\
          fs_start s < at_ 10 30 /\
          fs_end s = fs_start s + hour) /\
       (forall b, b ∈ [mkBusy (at_ 9 30) (at_ 9 45)] -> ~ overlaps s b)) /\
  (in_range (mkWindow (at_ 9 0) (at_ 10 30)) hour ->
   exists r,
     yields (mkWindow (at_ 9 0) (at_ 10 30)) [mkBusy (at_ 9 30) (at_ 9 45)]
       hour (Returned r)).
Proof.
  apply (free_slots_sound_and_complete (mkWindow (at_ 9 0) (at_ 10 30))
           [mkBusy (at_ 9 30) (at_ 9 45)] hour).
  reflexivity.
Defined.

(** The handler's own call, for any date and busy entries whose times are
    naive datetimes: the loop ends within ten tests of its condition, and
    the result holds exactly those of the nine slots 09:00-10:00, ...,
    17:00-18:00 of that day that overlap no busy interval; with nothing
    busy it holds all nine. *)
Theorem check_availability_hourly_slots target_date busy :
  0 <= target_date <= datetime_max ->
  exists r,
    check_availability 10 target_date (naive_entry <$> busy)
    = Some (Free r) /\
    (length r <= 9)%nat /\
    (busy = [] -> length r = 9%nat) /\
    forall s,
      s ∈ r <->
      (exists k, 0 <= k < 9 /\
         fs_start s = replace_hour target_date 9 + k * hour /\
         fs_end s = fs_start s + hour) /\
      (forall b, b ∈ busy -> ~ overlaps s b).
Proof.
  intros Hd.
  destruct (check_availability_naive target_date busy Hd) as [Hrun _].
  eexists. split; [exact Hrun|]. split; [|split].
  - etransitivity; [apply length_filter|]. now rewrite length_candidates.
  - intros ->. now rewrite filter_free_nil, length_candidates.
  - intros s. rewrite list_elem_of_filter, slot_is_free_spec. split.
    + intros [Hfree (k & Hk & ->)%elem_of_candidates].
      split; [|exact Hfree]. exists (Z.of_nat k). simpl. lia.
    + intros [(k & Hk & Hs & He) Hfree]. split; [exact Hfree|].
      apply list_elem_of_lookup. exists (Z.to_nat k).
      rewrite candidates_lookup by lia. rewrite Z2Nat.id by lia.
      destruct s as [a e]. simpl in *. f_equal. f_equal; lia.
Qed.

Lemma check_availability_hourly_slots_witness :
  exists r,
    check_availability 10 (at_ 13 20)
      (naive_entry <$> [mkBusy (at_ 9 0) (at_ 10 30)])
    = Some (Free r) /\
    (length r <= 9)%nat /\
    ([mkBusy (at_ 9 0) (at_ 10 30)] = [] -> length r = 9%nat) /\
    forall s,
      s ∈ r <->
      (exists k, 0 <= k < 9 /\
         fs_start s = replace_hour (at_ 13 20) 9 + k * hour /\
         fs_end s = fs_start s + hour) /\
      (forall b, b ∈ [mkBusy (at_ 9 0) (at_ 10 30)] -> ~ overlaps s b).
Proof.
  apply (check_availability_hourly_slots (at_ 13 20)
           [mkBusy (at_ 9 0) (at_ 10 30)]).
  vm_compute. split; discriminate.
Defined.

(** A first busy entry whose end carries a UTC offset stops the handler's
    call at its first candidate: comparing the naive [current] with the
    aware end raises a [TypeError], whatever the other entries are. *)
Theorem aware_busy_end_raises target_date busy_start t utcoffset rest :
  0 <= target_date <= datetime_max ->
  check_availability 10 target_date
    (mkEntry (Value busy_start) (Value (Aware t utcoffset)) :: rest)
  = Some (Failed (ByEntry TypeError)).
Proof.
  intros Hd. pose proof (working_hours_in_range _ Hd) as [Hlo Hhi].
  pose proof (working_hours_length target_date) as Hlen.
  assert (Hh : 0 < hour) by reflexivity.
  unfold check_availability. cbn [entries_loop].
  assert (Hlt : (start_time (working_hours target_date)
                 <? end_time (working_hours target_date)) = true)
    by (apply Z.ltb_lt; lia).
  rewrite Hlt. rewrite datetime_add_in_range by lia. reflexivity.
Qed.

Lemma aware_busy_end_raises_witness :
  check_availability 10 (at_ 13 20)
    [mkEntry (Value (Aware (at_ 9 0) (5 * hour + 30 * minute)))
             (Value (Aware (at_ 10 30) (5 * hour + 30 * minute)))]
  = Some (Failed (ByEntry TypeError)).
Proof.
  apply (aware_busy_end_raises (at_ 13 20)).
  vm_compute. split; discriminate.
Defined.
